(** * The user-management command line of [app/cli.py]

    A shallow embedding of the nine Typer commands of [app/cli.py] and of the
    relational store they talk to, followed by the properties of the
    specification that concern them.

    The commands are translated line by line into a small state-and-exception
    monad.  The state is the database (what is committed), the session opened
    by [with get_session() as db] (the Python objects it handed out and its
    pending unit of work) and what was printed on standard output. *)

From Stdlib Require Import List String Ascii ZArith Bool Arith Lia.
Import ListNotations.

Open Scope string_scope.
Open Scope list_scope.

(** ** The User entity *)

(** Modelled from the spec: the entity of [app/models.py] ("id (integer,
    store-assigned), username (string, unique), email (string, unique),
    password (string, stored as given)").  A freshly constructed object has no
    id yet; the store assigns one when the row is inserted.  Strings are
    sequences of 8-bit characters. *)
Record User := mkUser {
  id : option Z;
  username : string;
  email : string;
  password : string
}.

Definition set_id (k : Z) (u : User) : User :=
  mkUser (Some k) (username u) (email u) (password u).

Definition set_email (e : string) (u : User) : User :=
  mkUser (id u) (username u) e (password u).

Definition has_id (k : Z) (u : User) : bool :=
  match id u with
  | Some j => Z.eqb j k
  | None => false
  end.

(** ** The relational store *)

Definition table := list User.

(** The rows of the user table in the store's natural order (the order of a
    scan without ORDER BY, which is the order of insertion), or [None] when
    the schema has not been created.  [like_case_sensitive] is the store's
    collation for LIKE: it is engine dependent and no command changes it. *)
Record Database := mkDatabase {
  like_case_sensitive : bool;
  user_table : option table
}.

Definition set_table (t : option table) (d : Database) : Database :=
  mkDatabase (like_case_sensitive d) t.

Inductive exn : Type :=
| IntegrityError
| OperationalError
| InvalidRequestError
| OverflowError.

Inductive result (A : Type) : Type :=
| Ok (a : A)
| Raise (e : exn).

Arguments Ok {A} a.
Arguments Raise {A} e.

(** *** LIKE *)

Definition percent : ascii := "%"%char.
Definition underscore : ascii := "_"%char.

(** The collation that does not tell the cases apart folds the letters A to
    Z of ASCII onto a to z and no other character. *)
Definition is_upper (c : ascii) : bool :=
  (65 <=? nat_of_ascii c)%nat && (nat_of_ascii c <=? 90)%nat.

Definition fold_case (c : ascii) : ascii :=
  if is_upper c then ascii_of_nat (nat_of_ascii c + 32) else c.

Definition like_char (cs : bool) (c d : ascii) : bool :=
  if cs then Ascii.eqb c d else Ascii.eqb (fold_case c) (fold_case d).

(** SQL's [s LIKE pattern]: [%] stands for any run of characters, also the
    empty one, [_] for exactly one character, and every other character for
    itself up to the collation.  No character escapes another. *)
Fixpoint like (cs : bool) (pattern s : string) {struct pattern} : bool :=
  match pattern with
  | EmptyString =>
      match s with
      | EmptyString => true
      | String _ _ => false
      end
  | String c p =>
      if Ascii.eqb c percent then
        (fix any (s : string) : bool :=
           like cs p s ||
           match s with
           | EmptyString => false
           | String _ s' => any s'
           end) s
      else
        match s with
        | EmptyString => false
        | String d s' => (Ascii.eqb c underscore || like_char cs c d) && like cs p s'
        end
  end.

(** *** Statements *)

Inductive column : Type := c_username | c_email.

Definition column_value (c : column) (u : User) : string :=
  match c with
  | c_username => username u
  | c_email => email u
  end.

(** The WHERE clauses the commands build: [User.c == v],
    [User.c.contains(q)] and [a | b]. *)
Inductive clause : Type :=
| Eq (c : column) (v : string)
| Contains (c : column) (q : string)
| Or (a b : clause).

(** SQLAlchemy renders [column.contains(q)] as
    [column LIKE '%' || q || '%'] and, [autoescape] not being asked for,
    passes [q] as it is: a [%] or [_] inside [q] is a wildcard too. *)
Definition contains_pattern (q : string) : string :=
  (String percent q ++ String percent EmptyString)%string.

Fixpoint eval_clause (cs : bool) (w : clause) (u : User) : bool :=
  match w with
  | Eq c v => String.eqb (column_value c u) v
  | Contains c q => like cs (contains_pattern q) (column_value c u)
  | Or a b => eval_clause cs a u || eval_clause cs b u
  end.

Record Select := mkSelect {
  whereclause : option clause;
  offset_clause : option Z;
  limit_clause : option Z
}.

Definition select_User : Select := mkSelect None None None.

Definition where_ (w : clause) (q : Select) : Select :=
  mkSelect (Some w) (offset_clause q) (limit_clause q).

Definition offset (n : Z) (q : Select) : Select :=
  mkSelect (whereclause q) (Some n) (limit_clause q).

Definition limit (n : Z) (q : Select) : Select :=
  mkSelect (whereclause q) (offset_clause q) (Some n).

(** The integers the driver can hand to the store are those of 64 bits with
    a sign; binding any other Python int raises OverflowError. *)
Definition int64_min : Z := (-9223372036854775808)%Z.

Definition int64_max : Z := 9223372036854775807%Z.

Definition fits_int64 (n : Z) : bool :=
  (int64_min <=? n)%Z && (n <=? int64_max)%Z.

Definition bindable (o : option Z) : bool :=
  match o with
  | None => true
  | Some n => fits_int64 n
  end.

(** OFFSET n skips the first n rows and LIMIT n keeps at most n of the rest.
    For negative numbers the behaviour is the store's; the model follows
    SQLite, where a negative OFFSET skips nothing and a negative LIMIT is no
    limit. *)
Definition apply_offset (o : option Z) (rows : table) : table :=
  match o with
  | None => rows
  | Some n => skipn (Z.to_nat n) rows
  end.

Definition apply_limit (l : option Z) (rows : table) : table :=
  match l with
  | None => rows
  | Some n => if (n <? 0)%Z then rows else firstn (Z.to_nat n) rows
  end.

Definition apply_where (cs : bool) (w : option clause) (rows : table) : table :=
  match w with
  | None => rows
  | Some c => filter (eval_clause cs c) rows
  end.

(** The statement is prepared first, which fails when the table is missing;
    then its LIMIT and OFFSET are bound, which fails when one of them does
    not fit; then the rows are read. *)
Definition sql_select (q : Select) (d : Database) : result table :=
  match user_table d with
  | None => Raise OperationalError
  | Some rows =>
      if bindable (limit_clause q) && bindable (offset_clause q) then
        Ok (apply_limit (limit_clause q)
              (apply_offset (offset_clause q)
                 (apply_where (like_case_sensitive d) (whereclause q) rows)))
      else Raise OverflowError
  end.

(** The id the store gives the next inserted row: one more than the largest
    id in the table, 1 in an empty table.  (A store whose largest id is the
    last integer of 64 bits has no such id left and picks another; the model
    does not go that far.) *)
Definition id_or_zero (u : User) : Z :=
  match id u with
  | Some k => k
  | None => 0%Z
  end.

Definition max_id (rows : table) : Z :=
  fold_right Z.max 0%Z (map id_or_zero rows).

Definition next_id (rows : table) : Z := (max_id rows + 1)%Z.

(** Modelled from the spec: the uniqueness rules of the entity ("username and
    email must each be unique across all User rows; violated uniqueness causes
    the store to reject the write"). *)
Definition taken (u e : string) (rows : table) : bool :=
  existsb (fun r => String.eqb (username r) u || String.eqb (email r) e) rows.

Definition email_taken_by_other (k : Z) (e : string) (rows : table) : bool :=
  existsb (fun r => negb (has_id k r) && String.eqb (email r) e) rows.

(** INSERT INTO user (username, email, password): the new row, with its id,
    and the table with the row at its end. *)
Definition sql_insert (u : User) (d : Database) : result (User * Database) :=
  match user_table d with
  | None => Raise OperationalError
  | Some rows =>
      if taken (username u) (email u) rows then Raise IntegrityError
      else
        let row := set_id (next_id rows) u in
        Ok (row, set_table (Some (rows ++ [row])) d)
  end.

(** UPDATE user SET email = e WHERE id = k. *)
Definition sql_update_email (k : Z) (e : string) (d : Database) : result Database :=
  match user_table d with
  | None => Raise OperationalError
  | Some rows =>
      if email_taken_by_other k e rows then Raise IntegrityError
      else
        Ok (set_table
              (Some (map (fun r => if has_id k r then set_email e r else r) rows)) d)
  end.

(** DELETE FROM user WHERE id = k. *)
Definition sql_delete (k : Z) (d : Database) : result Database :=
  match user_table d with
  | None => Raise OperationalError
  | Some rows => Ok (set_table (Some (filter (fun r => negb (has_id k r)) rows)) d)
  end.

(** ** The session and the command monad *)

(** A reference to a Python object: its index among the objects the running
    command created or loaded. *)
Definition ref := nat.

(** The session keeps the unit of work: the objects added and not yet
    inserted, those with a changed attribute, and those marked for
    deletion. *)
Record Session := mkSession {
  objects : list User;
  pending_new : list ref;
  pending_dirty : list ref;
  pending_deleted : list ref
}.

Definition empty_session : Session := mkSession [] [] [] [].

(** A line of standard output: a text, or [print(user)] of a record (the
    format is the entity's own, in [app/models.py]). *)
Inductive line : Type :=
| Text (s : string)
| Repr (u : User).

Record World := mkWorld {
  database : Database;
  session : Session;
  stdout : list line
}.

Definition M (A : Type) : Type := World -> result A * World.

Definition ret {A} (a : A) : M A := fun w => (Ok a, w).

Definition raise {A} (e : exn) : M A := fun w => (Raise e, w).

Definition bind {A B} (c : M A) (k : A -> M B) : M B :=
  fun w =>
    match c w with
    | (Ok a, w') => k a w'
    | (Raise e, w') => (Raise e, w')
    end.

Declare Scope cmd_scope.
Delimit Scope cmd_scope with cmd.
Notation "x <- c ;; k" := (bind c (fun x => k))
  (at level 61, c at next level, right associativity) : cmd_scope.
Notation "c ;; k" := (bind c (fun _ => k))
  (at level 61, right associativity) : cmd_scope.
Open Scope cmd_scope.

(** [try: body except IntegrityError: handler else: orelse]. *)
Definition try_except_IntegrityError (body handler orelse : M unit) : M unit :=
  fun w =>
    match body w with
    | (Ok _, w') => orelse w'
    | (Raise IntegrityError, w') => handler w'
    | (Raise e, w') => (Raise e, w')
    end.

Fixpoint for_each {A} (xs : list A) (body : A -> M unit) : M unit :=
  match xs with
  | [] => ret tt
  | x :: xs' => body x ;; for_each xs' body
  end.

Definition print (l : line) : M unit :=
  fun w => (Ok tt, mkWorld (database w) (session w) (stdout w ++ [l])).

Definition set_session (s : Session) (w : World) : World :=
  mkWorld (database w) s (stdout w).

Definition set_database (d : Database) (w : World) : World :=
  mkWorld d (session w) (stdout w).

(** Modelled from the spec: [get_session] of [app/database.py] ("obtain a
    scoped connection to the Data Store, guaranteeing release on every exit
    path including error paths").  The block runs in a new session, which is
    closed when the block is left, normally or by an exception; what was not
    committed is lost with it. *)
Definition with_get_session {A} (body : M A) : M A :=
  fun w =>
    let (r, w') := body (set_session empty_session w) in
    (r, set_session empty_session w').

(** Modelled from the spec: [drop_all] of [app/database.py] ("drops all
    existing tables"). *)
Definition drop_all : M unit :=
  fun w => (Ok tt, set_database (set_table None (database w)) w).

(** Modelled from the spec: [create_db_and_tables] of [app/database.py]
    ("recreates the schema from the User entity definition"): a table that is
    missing is created empty. *)
Definition create_db_and_tables : M unit :=
  fun w =>
    match user_table (database w) with
    | None => (Ok tt, set_database (set_table (Some []) (database w)) w)
    | Some _ => (Ok tt, w)
    end.

(** *** Objects *)

Definition alloc (u : User) (s : Session) : ref * Session :=
  (List.length (objects s),
   mkSession (objects s ++ [u]) (pending_new s) (pending_dirty s) (pending_deleted s)).

Fixpoint update_nth {A} (n : nat) (x : A) (l : list A) : list A :=
  match l, n with
  | [], _ => []
  | _ :: l', O => x :: l'
  | y :: l', S n' => y :: update_nth n' x l'
  end.

Definition store_object (r : ref) (u : User) (s : Session) : Session :=
  mkSession (update_nth r u (objects s)) (pending_new s) (pending_dirty s)
    (pending_deleted s).

(** [User(username, email, password)]: a new object, not yet in the store. *)
Definition new_User (u e p : string) : M ref :=
  fun w =>
    let (r, s) := alloc (mkUser None u e p) (session w) in
    (Ok r, set_session s w).

(** Reading the attributes of an object. *)
Definition getattr (r : ref) : M User :=
  fun w =>
    match nth_error (objects (session w)) r with
    | Some u => (Ok u, w)
    | None => (Raise InvalidRequestError, w)
    end.

(** [print(user)]. *)
Definition print_user (r : ref) : M unit :=
  u <- getattr r ;; print (Repr u).

(** [user.email = new_email]: the object changes, and the session, which
    tracks the objects it loaded, notes that it must be written back. *)
Definition setattr_email (r : ref) (e : string) : M unit :=
  fun w =>
    let s := session w in
    match nth_error (objects s) r with
    | None => (Raise InvalidRequestError, w)
    | Some u =>
        (Ok tt,
         set_session
           (mkSession (update_nth r (set_email e u) (objects s)) (pending_new s)
              (match id u with
               | Some _ => pending_dirty s ++ [r]
               | None => pending_dirty s
               end)
              (pending_deleted s)) w)
    end.

(** *** Queries *)

(** [db.exec(statement)]: the rows the statement selects. *)
Definition db_exec (q : Select) : M table :=
  fun w =>
    match sql_select q (database w) with
    | Ok rows => (Ok rows, w)
    | Raise e => (Raise e, w)
    end.

Definition load (u : User) : M ref :=
  fun w => let (r, s) := alloc u (session w) in (Ok r, set_session s w).

(** [.first()]: the first row as an object, or [None]. *)
Definition first (rows : table) : M (option ref) :=
  match rows with
  | [] => ret None
  | u :: _ => r <- load u ;; ret (Some r)
  end.

(** [.all()]: every row as an object, in order. *)
Fixpoint all (rows : table) : M (list ref) :=
  match rows with
  | [] => ret []
  | u :: rows' => r <- load u ;; rs <- all rows' ;; ret (r :: rs)
  end.

(** *** The unit of work *)

(** [db.add(obj)]: a new object is queued for insertion; an object that came
    from the store is in the session already. *)
Definition db_add (r : ref) : M unit :=
  fun w =>
    let s := session w in
    match nth_error (objects s) r with
    | None => (Raise InvalidRequestError, w)
    | Some u =>
        match id u with
        | None =>
            (Ok tt,
             set_session
               (mkSession (objects s) (pending_new s ++ [r]) (pending_dirty s)
                  (pending_deleted s)) w)
        | Some _ => (Ok tt, w)
        end
    end.

(** [db.delete(obj)]. *)
Definition db_delete (r : ref) : M unit :=
  fun w =>
    let s := session w in
    (Ok tt,
     set_session
       (mkSession (objects s) (pending_new s) (pending_dirty s)
          (pending_deleted s ++ [r])) w).

(** The flush writes the unit of work to the store, statement by statement:
    inserts, then updates, then deletes.  An inserted object receives its
    id. *)
Fixpoint flush_new (rs : list ref) (objs : list User) (d : Database)
  : result (list User * Database) :=
  match rs with
  | [] => Ok (objs, d)
  | r :: rs' =>
      match nth_error objs r with
      | None => Raise InvalidRequestError
      | Some u =>
          match sql_insert u d with
          | Raise e => Raise e
          | Ok (row, d') => flush_new rs' (update_nth r row objs) d'
          end
      end
  end.

Fixpoint flush_dirty (rs : list ref) (objs : list User) (d : Database)
  : result Database :=
  match rs with
  | [] => Ok d
  | r :: rs' =>
      match nth_error objs r with
      | None => Raise InvalidRequestError
      | Some u =>
          match id u with
          | None => Raise InvalidRequestError
          | Some k =>
              match sql_update_email k (email u) d with
              | Raise e => Raise e
              | Ok d' => flush_dirty rs' objs d'
              end
          end
      end
  end.

Fixpoint flush_deleted (rs : list ref) (objs : list User) (d : Database)
  : result Database :=
  match rs with
  | [] => Ok d
  | r :: rs' =>
      match nth_error objs r with
      | None => Raise InvalidRequestError
      | Some u =>
          match id u with
          | None => Raise InvalidRequestError
          | Some k =>
              match sql_delete k d with
              | Raise e => Raise e
              | Ok d' => flush_deleted rs' objs d'
              end
          end
      end
  end.

Definition flush (s : Session) (d : Database) : result (list User * Database) :=
  match flush_new (pending_new s) (objects s) d with
  | Raise e => Raise e
  | Ok (objs, d1) =>
      match flush_dirty (pending_dirty s) objs d1 with
      | Raise e => Raise e
      | Ok d2 =>
          match flush_deleted (pending_deleted s) objs d2 with
          | Raise e => Raise e
          | Ok d3 => Ok (objs, d3)
          end
      end
  end.

(** [db.commit()]: the unit of work is flushed in one transaction.  When a
    statement is rejected the transaction is undone, the store keeps what was
    committed before and the error is raised; otherwise the result becomes
    the committed state and nothing is pending any more. *)
Definition db_commit : M unit :=
  fun w =>
    match flush (session w) (database w) with
    | Raise e => (Raise e, w)
    | Ok (objs, d) => (Ok tt, mkWorld d (mkSession objs [] [] []) (stdout w))
    end.

(** [db.rollback()]: the session forgets what was pending. *)
Definition db_rollback : M unit :=
  fun w =>
    (Ok tt, set_session (mkSession (objects (session w)) [] [] []) w).

(** [db.refresh(obj)]: the object is read again from its row. *)
Definition db_refresh (r : ref) : M unit :=
  fun w =>
    match nth_error (objects (session w)) r with
    | None => (Raise InvalidRequestError, w)
    | Some u =>
        match id u with
        | None => (Raise InvalidRequestError, w)
        | Some k =>
            match user_table (database w) with
            | None => (Raise OperationalError, w)
            | Some rows =>
                match find (has_id k) rows with
                | None => (Raise InvalidRequestError, w)
                | Some row => (Ok tt, set_session (store_object r row (session w)) w)
                end
            end
        end
    end.

(** ** The commands of [app/cli.py] *)

Definition dquote : string := String (ascii_of_nat 34) EmptyString.

Definition not_found_message (username : string) : string :=
  (username ++ " not found!")%string.

Definition unable_to_update_message (username : string) : string :=
  (username ++ " not found! Unable to update email.")%string.

Definition unable_to_delete_message (username : string) : string :=
  (username ++ " not found! Unable to delete user.")%string.

Definition updated_message (user : User) : string :=
  ("Updated " ++ username user ++ "'s email to " ++ email user)%string.

Definition deleted_message (username : string) : string :=
  (username ++ " deleted")%string.

Definition no_match_message (query : string) : string :=
  ("No users found matching " ++ dquote ++ query ++ dquote)%string.

Definition initialize : M unit :=
  with_get_session (
    drop_all ;;
    create_db_and_tables ;;
    bob <- new_User "bob" "bob@mail.com" "bobpass" ;;
    db_add bob ;;
    db_commit ;;
    db_refresh bob ;;
    print (Text "Database Initialized")).

Definition get_user (username : string) : M unit :=
  with_get_session (
    rows <- db_exec (where_ (Eq c_username username) select_User) ;;
    user <- first rows ;;
    match user with
    | None => print (Text (not_found_message username))
    | Some user => print_user user
    end).

Definition get_all_users : M unit :=
  with_get_session (
    rows <- db_exec select_User ;;
    all_users <- all rows ;;
    match all_users with
    | [] => print (Text "No users found")
    | _ :: _ => for_each all_users print_user
    end).

Definition change_email (username new_email : string) : M unit :=
  with_get_session (
    rows <- db_exec (where_ (Eq c_username username) select_User) ;;
    user <- first rows ;;
    match user with
    | None => print (Text (unable_to_update_message username))
    | Some user =>
        setattr_email user new_email ;;
        db_add user ;;
        db_commit ;;
        u <- getattr user ;;
        print (Text (updated_message u))
    end).

Definition create_user (username email password : string) : M unit :=
  with_get_session (
    newuser <- new_User username email password ;;
    try_except_IntegrityError
      (db_add newuser ;;
       db_commit)
      (db_rollback ;;
       print (Text "Username or email already taken!"))
      (print_user newuser)).

Definition delete_user (username : string) : M unit :=
  with_get_session (
    rows <- db_exec (where_ (Eq c_username username) select_User) ;;
    user <- first rows ;;
    match user with
    | None => print (Text (unable_to_delete_message username))
    | Some user =>
        db_delete user ;;
        db_commit ;;
        print (Text (deleted_message username))
    end).

Definition find_user (query : string) : M unit :=
  with_get_session (
    rows <- db_exec
              (where_ (Or (Contains c_username query) (Contains c_email query))
                 select_User) ;;
    users <- all rows ;;
    match users with
    | [] => print (Text (no_match_message query))
    | _ :: _ => for_each users print_user
    end).

Definition list_users (limit_ offset_ : Z) : M unit :=
  with_get_session (
    rows <- db_exec (limit limit_ (offset offset_ select_User)) ;;
    users <- all rows ;;
    match users with
    | [] => print (Text "No users found")
    | _ :: _ => for_each users print_user
    end).

(** One invocation of the command line: the command runs on the store as it
    is, with nothing printed yet; what is left is whether it ended normally,
    the store and the output. *)
Definition run (c : M unit) (d : Database) : result unit * Database * list line :=
  let (r, w) := c (mkWorld d empty_session []) in
  (r, database w, stdout w).

(** The store whose user table holds [rows]. *)
Definition store (cs : bool) (rows : table) : Database :=
  mkDatabase cs (Some rows).




(** Successive invocations: each starts from the store the previous one
    left, whether that one ended normally or not. *)
Definition store_after (c : M unit) (d : Database) : Database :=
  snd (fst (run c d)).

Definition output_of (c : M unit) (d : Database) : list line :=
  snd (run c d).

Definition outcome_of (c : M unit) (d : Database) : result unit :=
  fst (fst (run c d)).

(** ** The invariant of the store *)

(** No element of the list occurs twice. *)
Fixpoint distinct {A} (eqb : A -> A -> bool) (l : list A) : bool :=
  match l with
  | [] => true
  | x :: l' => negb (existsb (eqb x) l') && distinct eqb l'
  end.

(** The row has an id. *)
Definition has_some_id (u : User) : bool :=
  match id u with
  | Some _ => true
  | None => false
  end.

(** Every row has an id, and ids, usernames and emails are each unique: what
    the primary key and the two uniqueness rules of the entity guarantee. *)
Definition well_formed (rows : table) : bool :=
  forallb has_some_id rows
  && distinct Z.eqb (map id_or_zero rows)
  && distinct String.eqb (map username rows)
  && distinct String.eqb (map email rows).

(** The rows [User.username == u] and [User.email == e] select. *)
Definition by_username (u : string) (r : User) : bool := String.eqb (username r) u.

Definition by_email (e : string) (r : User) : bool := String.eqb (email r) e.

(** How many rows carry a given username, a given email. *)
Definition count_username (u : string) (rows : table) : nat :=
  List.length (filter (by_username u) rows).

Definition count_email (e : string) (rows : table) : nat :=
  List.length (filter (by_email e) rows).

(** The world with other objects in its session. *)
Definition with_objects (objs : list User) (w : World) : World :=
  set_session
    (mkSession objs (pending_new (session w)) (pending_dirty (session w))
       (pending_deleted (session w))) w.

(** ** Vocabulary of the properties *)

(** The seed user of [initialize] as the store holds it, and a second user
    for the examples. *)
Definition bob_row : User := mkUser (Some 1%Z) "bob" "bob@mail.com" "bobpass".

(** The rows a limit and an offset that are not negative select. *)
Definition page (limit_ offset_ : Z) (rows : table) : table :=
  firstn (Z.to_nat limit_) (skipn (Z.to_nat offset_) rows).

(** The rows the WHERE clause of [find_user] keeps. *)
Definition matching (cs : bool) (query : string) (rows : table) : table :=
  filter
    (fun r =>
       like cs (contains_pattern query) (username r)
       || like cs (contains_pattern query) (email r))
    rows.

(** The loop that prints the rows found, or the message when there are
    none. *)
Definition report (rows : table) (empty : string) : list line :=
  match rows with
  | [] => [Text empty]
  | _ :: _ => map Repr rows
  end.

Definition alice_row : User := mkUser (Some 2%Z) "alice" "alice@mail.com" "alicepass".

(** The query is a substring of the column, as the help text of [find_user]
    has it ("contains the given partial string"): it is a prefix of the
    column or of what follows one of its characters. *)
Fixpoint has_substring (q s : string) : bool :=
  prefix q s
  || match s with
     | EmptyString => false
     | String _ s' => has_substring q s'
     end.

(** No character of the query is a wildcard of LIKE. *)
Fixpoint plain (q : string) : bool :=
  match q with
  | EmptyString => true
  | String c q' =>
      negb (Ascii.eqb c percent) && negb (Ascii.eqb c underscore) && plain q'
  end.

(** The pattern matches the string or what follows one of its characters. *)
Fixpoint like_from (cs : bool) (p s : string) : bool :=
  like cs p s
  || match s with
     | EmptyString => false
     | String _ s' => like_from cs p s'
     end.

(** The commands the Typer application registers, with their arguments. *)
Inductive invocation : Type :=
| Initialize
| GetUser (username : string)
| GetAllUsers
| ChangeEmail (username new_email : string)
| CreateUser (username email password : string)
| DeleteUser (username : string)
| FindUser (query : string)
| ListUsers (limit_ offset_ : Z).

Definition cli (i : invocation) : M unit :=
  match i with
  | Initialize => initialize
  | GetUser u => get_user u
  | GetAllUsers => get_all_users
  | ChangeEmail u e => change_email u e
  | CreateUser u e p => create_user u e p
  | DeleteUser u => delete_user u
  | FindUser q => find_user q
  | ListUsers l o => list_users l o
  end.

(** A store without a schema has no row to break the invariant. *)
Definition well_formed_store (d : Database) : bool :=
  match user_table d with
  | None => true
  | Some rows => well_formed rows
  end.

(** The records among the lines printed, in the order they were printed. *)
Fixpoint printed_users (out : list line) : list User :=
  match out with
  | [] => []
  | Text _ :: out' => printed_users out'
  | Repr u :: out' => u :: printed_users out'
  end.

(** The commands that only query the store. *)
Definition read_only (i : invocation) : bool :=
  match i with
  | GetUser _ | GetAllUsers | FindUser _ | ListUsers _ _ => true
  | Initialize | ChangeEmail _ _ | CreateUser _ _ _ | DeleteUser _ => false
  end.

(** The stores a sequence of invocations leads to. *)
Definition store_after_all (calls : list invocation) (d : Database) : Database :=
  fold_left (fun d i => store_after (cli i) d) calls d.

(** ** Loading and printing rows *)

Section Objects.

Lemma all_loads (rows : table) :
  forall w,
    all rows w =
    (Ok (seq (List.length (objects (session w))) (List.length rows)),
     with_objects (objects (session w) ++ rows) w).
Proof.
  induction rows as [|r rows IH]; intros [d [objs pn pd pl] out].
  - cbn. unfold ret, with_objects, set_session. cbn. now rewrite app_nil_r.
  - cbn [all]. unfold bind at 1. unfold load, alloc. cbn.
    unfold bind at 1. rewrite IH. cbn.
    unfold ret, with_objects, set_session. cbn.
    rewrite length_app, Nat.add_1_r, <- app_assoc. reflexivity.
Qed.

Lemma nth_error_middle (pre post : list User) (r : User) :
  nth_error (pre ++ r :: post) (List.length pre) = Some r.
Proof.
  rewrite nth_error_app2 by lia. now rewrite Nat.sub_diag.
Qed.

Lemma print_user_loaded (r : ref) (u : User) (w : World) :
  nth_error (objects (session w)) r = Some u ->
  print_user r w = (Ok tt, mkWorld (database w) (session w) (stdout w ++ [Repr u])).
Proof.
  intros H. unfold print_user, bind, getattr. now rewrite H.
Qed.

Lemma for_each_print_user (rows : table) :
  forall pre w,
    objects (session w) = pre ++ rows ->
    for_each (seq (List.length pre) (List.length rows)) print_user w =
    (Ok tt, mkWorld (database w) (session w) (stdout w ++ map Repr rows)).
Proof.
  induction rows as [|r rows IH]; intros pre [d s out] Hobjs; cbn in *.
  - unfold ret. now rewrite app_nil_r.
  - unfold bind at 1.
    rewrite (print_user_loaded _ r) by (cbn; rewrite Hobjs; apply nth_error_middle).
    cbn [database session stdout].
    specialize (IH (pre ++ [r]) (mkWorld d s (out ++ [Repr r]))).
    rewrite length_app, Nat.add_1_r in IH. cbn in IH.
    rewrite IH by (now rewrite <- app_assoc).
    now rewrite <- app_assoc.
Qed.

(** A query's rows, loaded by [.all()] in a fresh session and printed one
    by one. *)
Lemma print_all (rows : table) (d : Database) (out : list line) (empty : M unit) :
  rows <> [] ->
  (users <- all rows ;;
   match users with
   | [] => empty
   | _ :: _ => for_each users print_user
   end) (mkWorld d empty_session out) =
  (Ok tt, mkWorld d (with_objects rows (mkWorld d empty_session out)).(session)
            (out ++ map Repr rows)).
Proof.
  intros Hne. unfold bind. rewrite all_loads. cbn [objects session empty_session].
  destruct rows as [|r rows]; [congruence|].
  cbn [List.length seq app].
  change (0 :: seq 1 (List.length rows))
    with (seq (List.length (@nil User)) (List.length (r :: rows))).
  rewrite for_each_print_user by reflexivity.
  reflexivity.
Qed.

End Objects.

(** ** What one invocation of each command does *)

Section Runs.

Variable cs : bool.

Lemma hd_filter_find {A} (f : A -> bool) (l : list A) :
  hd_error (filter f l) = find f l.
Proof.
  induction l as [|x l IH]; cbn; [reflexivity|].
  now destruct (f x).
Qed.

Lemma run_initialize (d : Database) :
  run initialize d =
  (Ok tt, store (like_case_sensitive d) [bob_row], [Text "Database Initialized"]).
Proof. destruct d as [c [t|]]; reflexivity. Qed.

Lemma run_get_user (rows : table) (u : string) :
  run (get_user u) (store cs rows) =
  (Ok tt, store cs rows,
   match find (by_username u) rows with
   | Some r => [Repr r]
   | None => [Text (not_found_message u)]
   end).
Proof.
  unfold run, get_user, with_get_session, bind, db_exec, sql_select. cbn.
  rewrite <- hd_filter_find.
  change (fun u0 : User => (username u0 =? u)%string) with (by_username u).
  destruct (filter (by_username u) rows) as [|r rs]; reflexivity.
Qed.

Lemma run_create_user (rows : table) (u e p : string) :
  run (create_user u e p) (store cs rows) =
  if taken u e rows
  then (Ok tt, store cs rows, [Text "Username or email already taken!"])
  else
    let row := mkUser (Some (next_id rows)) u e p in
    (Ok tt, store cs (rows ++ [row]), [Repr row]).
Proof.
  unfold run, create_user, with_get_session, try_except_IntegrityError, bind,
    db_commit, flush, sql_insert.
  cbn. destruct (taken u e rows); reflexivity.
Qed.

Lemma run_change_email_missing (rows : table) (u new_e : string) :
  find (by_username u) rows = None ->
  run (change_email u new_e) (store cs rows) =
  (Ok tt, store cs rows, [Text (unable_to_update_message u)]).
Proof.
  intros Hfind.
  unfold run, change_email, with_get_session, bind, db_exec, sql_select. cbn.
  rewrite <- hd_filter_find in Hfind.
  change (fun u0 : User => (username u0 =? u)%string) with (by_username u).
  destruct (filter (by_username u) rows) as [|r rs]; [reflexivity|discriminate].
Qed.

Lemma run_change_email_found (rows : table) (u new_e : string) (r : User) (k : Z) :
  find (by_username u) rows = Some r ->
  id r = Some k ->
  run (change_email u new_e) (store cs rows) =
  if email_taken_by_other k new_e rows
  then (Raise IntegrityError, store cs rows, [])
  else
    (Ok tt,
     store cs (map (fun x => if has_id k x then set_email new_e x else x) rows),
     [Text (updated_message (set_email new_e r))]).
Proof.
  intros Hfind Hid.
  unfold run, change_email, with_get_session, bind, db_exec, sql_select. cbn.
  rewrite <- hd_filter_find in Hfind.
  change (fun u0 : User => (username u0 =? u)%string) with (by_username u).
  destruct (filter (by_username u) rows) as [|r' rs]; [discriminate|].
  cbn in Hfind. injection Hfind as ->.
  cbn. unfold db_add, db_commit, flush. cbn. rewrite Hid. cbn. rewrite Hid.
  unfold sql_update_email. cbn.
  destruct (email_taken_by_other k new_e rows); reflexivity.
Qed.

Lemma run_delete_user (rows : table) (u : string) :
  run (delete_user u) (store cs rows) =
  match find (by_username u) rows with
  | None => (Ok tt, store cs rows, [Text (unable_to_delete_message u)])
  | Some r =>
      match id r with
      | None => (Raise InvalidRequestError, store cs rows, [])
      | Some k =>
          (Ok tt, store cs (filter (fun x => negb (has_id k x)) rows),
           [Text (deleted_message u)])
      end
  end.
Proof.
  unfold run, delete_user, with_get_session, bind, db_exec, sql_select. cbn.
  rewrite <- hd_filter_find.
  change (fun u0 : User => (username u0 =? u)%string) with (by_username u).
  destruct (filter (by_username u) rows) as [|r rs]; [reflexivity|].
  cbn. unfold db_commit, flush. cbn.
  destruct (id r) as [k|]; reflexivity.
Qed.

Lemma run_query (q : Select) (rows : table) (empty : string) :
  run (with_get_session
         (found <- db_exec q ;;
          users <- all found ;;
          match users with
          | [] => print (Text empty)
          | _ :: _ => for_each users print_user
          end)) (store cs rows) =
  if bindable (limit_clause q) && bindable (offset_clause q)
  then
    (Ok tt, store cs rows,
     report (apply_limit (limit_clause q)
               (apply_offset (offset_clause q) (apply_where cs (whereclause q) rows)))
       empty)
  else (Raise OverflowError, store cs rows, []).
Proof.
  unfold run, with_get_session. unfold bind at 1. unfold db_exec, sql_select.
  cbn [database set_session store user_table like_case_sensitive session stdout].
  destruct (bindable (limit_clause q) && bindable (offset_clause q)); [|reflexivity].
  destruct (apply_limit _ _) as [|r found].
  - reflexivity.
  - change (set_session empty_session (mkWorld (store cs rows) empty_session []))
      with (mkWorld (store cs rows) empty_session []).
    rewrite print_all by discriminate. reflexivity.
Qed.

Lemma store_after_query (q : Select) (rows : table) (empty : string) :
  store_after
    (with_get_session
       (found <- db_exec q ;;
        users <- all found ;;
        match users with
        | [] => print (Text empty)
        | _ :: _ => for_each users print_user
        end)) (store cs rows) = store cs rows.
Proof.
  unfold store_after. rewrite run_query.
  now destruct (bindable (limit_clause q) && bindable (offset_clause q)).
Qed.

Lemma run_get_all_users (rows : table) :
  run get_all_users (store cs rows) =
  (Ok tt, store cs rows, report rows "No users found").
Proof. unfold get_all_users. now rewrite run_query. Qed.

Lemma run_find_user (rows : table) (query : string) :
  run (find_user query) (store cs rows) =
  (Ok tt, store cs rows, report (matching cs query rows) (no_match_message query)).
Proof. unfold find_user. now rewrite run_query. Qed.

Lemma run_list_users (rows : table) (limit_ offset_ : Z) :
  (0 <= limit_ <= int64_max)%Z ->
  (int64_min <= offset_ <= int64_max)%Z ->
  run (list_users limit_ offset_) (store cs rows) =
  (Ok tt, store cs rows, report (page limit_ offset_ rows) "No users found").
Proof.
  intros Hl Ho. unfold list_users. rewrite run_query.
  cbn [limit offset limit_clause offset_clause whereclause select_User bindable].
  assert (Hfit : fits_int64 limit_ && fits_int64 offset_ = true).
  { unfold fits_int64, int64_min in *.
    rewrite !andb_true_iff, !Z.leb_le. lia. }
  rewrite Hfit. cbn [apply_where apply_offset apply_limit]. unfold page.
  destruct (Z.ltb_spec limit_ 0); [lia|reflexivity].
Qed.

(** A limit or an offset that does not fit 64 bits is refused when it is
    bound: the command ends with OverflowError and prints nothing. *)
Lemma run_list_users_overflow (rows : table) (limit_ offset_ : Z) :
  fits_int64 limit_ && fits_int64 offset_ = false ->
  run (list_users limit_ offset_) (store cs rows) =
  (Raise OverflowError, store cs rows, []).
Proof.
  intros Hfit. unfold list_users. rewrite run_query.
  cbn [limit offset limit_clause offset_clause whereclause select_User bindable].
  now rewrite Hfit.
Qed.

End Runs.

(** ** Lists without repetition *)

Section Distinct.

Context {A : Type} (eqb : A -> A -> bool).
Hypothesis eqb_eq : forall x y, eqb x y = true <-> x = y.

Lemma existsb_eqb_In (x : A) (l : list A) :
  existsb (eqb x) l = true <-> In x l.
Proof.
  rewrite existsb_exists. split.
  - intros [y [Hin Heq]]. apply eqb_eq in Heq. now subst.
  - intros Hin. exists x. split; [assumption|now apply eqb_eq].
Qed.

Lemma distinct_NoDup (l : list A) :
  distinct eqb l = true <-> NoDup l.
Proof.
  induction l as [|x l IH]; cbn.
  - split; [constructor|reflexivity].
  - rewrite andb_true_iff, negb_true_iff, IH. split.
    + intros [Hx Hl]. constructor; [|assumption].
      rewrite <- existsb_eqb_In. congruence.
    + intros H. inversion H as [|? ? Hx Hl]; subst. split; [|assumption].
      destruct (existsb (eqb x) l) eqn:E; [|reflexivity].
      apply existsb_eqb_In in E. contradiction.
Qed.

End Distinct.

Section Invariant.

Lemma NoDup_map_others {B} (f : User -> B) (a b : table) (r : User) :
  NoDup (map f (a ++ r :: b)) ->
  forall x, In x (a ++ b) -> f x <> f r.
Proof.
  rewrite map_app. cbn. intros Hnd x Hin Heq.
  apply NoDup_remove_2 in Hnd. apply Hnd.
  rewrite <- map_app, <- Heq. now apply in_map.
Qed.

Lemma well_formed_spec (rows : table) :
  well_formed rows = true <->
  Forall (fun r => has_some_id r = true) rows
  /\ NoDup (map id_or_zero rows)
  /\ NoDup (map username rows)
  /\ NoDup (map email rows).
Proof.
  unfold well_formed. rewrite !andb_true_iff, forallb_forall, Forall_forall.
  rewrite (distinct_NoDup Z.eqb Z.eqb_eq).
  rewrite !(distinct_NoDup String.eqb String.eqb_eq).
  tauto.
Qed.

Lemma has_some_id_inv (r : User) :
  has_some_id r = true -> exists k, id r = Some k /\ id_or_zero r = k.
Proof.
  unfold has_some_id, id_or_zero. destruct (id r) as [k|]; [|discriminate].
  intros _. now exists k.
Qed.

(** In a well-formed table a row is alone with its id, its username and
    its email. *)
Lemma well_formed_split (rows : table) (r : User) :
  well_formed rows = true ->
  In r rows ->
  exists a b k,
    rows = a ++ r :: b
    /\ id r = Some k
    /\ forall x, In x (a ++ b) ->
         has_id k x = false /\ username x <> username r /\ email x <> email r.
Proof.
  intros Hwf Hin. apply well_formed_spec in Hwf.
  destruct Hwf as (Hids & Hid & Hname & Hmail).
  destruct (in_split _ _ Hin) as (a & b & ->).
  rewrite Forall_forall in Hids.
  destruct (has_some_id_inv r (Hids r Hin)) as (k & Hk & Hk0).
  exists a, b, k. repeat split; try assumption.
  - assert (Hx : In x (a ++ r :: b)).
    { apply in_app_or in H. apply in_or_app. cbn. tauto. }
    destruct (has_some_id_inv x (Hids x Hx)) as (j & Hj & Hj0).
    unfold has_id. rewrite Hj. apply Z.eqb_neq.
    pose proof (NoDup_map_others id_or_zero a b r Hid x H). congruence.
  - now apply (NoDup_map_others username a b r).
  - now apply (NoDup_map_others email a b r).
Qed.

Lemma find_none_iff (u : string) (rows : table) :
  find (by_username u) rows = None <-> forall r, In r rows -> username r <> u.
Proof.
  split.
  - intros H r Hin Heq.
    apply (find_none _ _ H) in Hin. unfold by_username in Hin.
    apply String.eqb_neq in Hin. contradiction.
  - intros H. destruct (find (by_username u) rows) as [r|] eqn:E; [|reflexivity].
    apply find_some in E. destruct E as [Hin Hu].
    apply String.eqb_eq in Hu. now apply H in Hin.
Qed.

Lemma find_middle (u : string) (a b : table) (r : User) :
  username r = u ->
  (forall x, In x a -> username x <> u) ->
  find (by_username u) (a ++ r :: b) = Some r.
Proof.
  intros Hr Ha. induction a as [|x a IH]; cbn.
  - unfold by_username. now rewrite (proj2 (String.eqb_eq _ _) Hr).
  - unfold by_username at 1.
    rewrite (proj2 (String.eqb_neq _ _) (Ha x (or_introl eq_refl))).
    apply IH. intros y Hy. apply Ha. now right.
Qed.

Lemma update_middle (k : Z) (e : string) (a b : table) (r : User) :
  id r = Some k ->
  (forall x, In x (a ++ b) -> has_id k x = false) ->
  map (fun x => if has_id k x then set_email e x else x) (a ++ r :: b) =
  a ++ set_email e r :: b.
Proof.
  intros Hr Hothers.
  assert (Hsame : forall l, (forall x, In x l -> has_id k x = false) ->
                            map (fun x => if has_id k x then set_email e x else x) l = l).
  { induction l as [|x l IH]; cbn; intros Hl; [reflexivity|].
    rewrite (Hl x (or_introl eq_refl)), IH; [reflexivity|].
    intros y Hy. apply Hl. now right. }
  rewrite map_app. cbn.
  rewrite !Hsame by (intros x Hx; apply Hothers, in_or_app; tauto).
  unfold has_id at 1. now rewrite Hr, Z.eqb_refl.
Qed.

Lemma delete_middle (k : Z) (a b : table) (r : User) :
  id r = Some k ->
  (forall x, In x (a ++ b) -> has_id k x = false) ->
  filter (fun x => negb (has_id k x)) (a ++ r :: b) = a ++ b.
Proof.
  intros Hr Hothers.
  assert (Hsame : forall l, (forall x, In x l -> has_id k x = false) ->
                            filter (fun x => negb (has_id k x)) l = l).
  { induction l as [|x l IH]; cbn; intros Hl; [reflexivity|].
    rewrite (Hl x (or_introl eq_refl)). cbn. rewrite IH; [reflexivity|].
    intros y Hy. apply Hl. now right. }
  rewrite filter_app. cbn.
  rewrite !Hsame by (intros x Hx; apply Hothers, in_or_app; tauto).
  unfold has_id at 1. now rewrite Hr, Z.eqb_refl.
Qed.

Lemma taken_false_iff (u e : string) (rows : table) :
  taken u e rows = false <->
  forall r, In r rows -> username r <> u /\ email r <> e.
Proof.
  unfold taken. split.
  - intros H r Hin.
    destruct (String.eqb_spec (username r) u) as [Hu|Hu].
    + assert (existsb (fun r0 => (username r0 =? u)%string || (email r0 =? e)%string) rows
              = true) as Hc.
      { apply existsb_exists. exists r. split; [assumption|].
        now rewrite (proj2 (String.eqb_eq _ _) Hu). }
      congruence.
    + destruct (String.eqb_spec (email r) e) as [He|He]; [|tauto].
      assert (existsb (fun r0 => (username r0 =? u)%string || (email r0 =? e)%string) rows
              = true) as Hc.
      { apply existsb_exists. exists r. split; [assumption|].
        rewrite (proj2 (String.eqb_eq _ _) He). apply orb_true_r. }
      congruence.
  - intros H.
    destruct (existsb _ rows) eqn:E; [|reflexivity].
    apply existsb_exists in E. destruct E as (r & Hin & Hr).
    destruct (H r Hin) as [Hu He].
    apply String.eqb_neq in Hu, He. rewrite Hu, He in Hr. discriminate.
Qed.

Lemma taken_true_iff (u e : string) (rows : table) :
  taken u e rows = true <->
  exists r, In r rows /\ (username r = u \/ email r = e).
Proof.
  unfold taken. rewrite existsb_exists.
  split; intros (r & Hin & Hr); exists r; (split; [assumption|]).
  - apply orb_true_iff in Hr. now rewrite !String.eqb_eq in Hr.
  - apply orb_true_iff. now rewrite !String.eqb_eq.
Qed.

End Invariant.

(** ** Creating users *)

Lemma max_id_upper (rows : table) (r : User) :
  In r rows -> (id_or_zero r <= max_id rows)%Z.
Proof.
  unfold max_id. induction rows as [|x rows IH]; cbn; [contradiction|].
  intros [->|Hin]; [lia|]. specialize (IH Hin). lia.
Qed.

Lemma next_id_fresh (rows : table) (r : User) :
  In r rows -> id r <> Some (next_id rows).
Proof.
  intros Hin Heq. pose proof (max_id_upper rows r Hin) as Hle.
  unfold id_or_zero in Hle. rewrite Heq in Hle. unfold next_id in Hle. lia.
Qed.

(** C1: when no row of the store has the username [u] and none has the email
    [e], [create_user u e p] ends normally, appends one record to the store
    and prints it, and a following [get_user u] prints that same record: its
    username is [u], its email [e], its password [p], and its id is one the
    store assigned, borne by no row that was there before. *)
Theorem create_user_then_get_user (cs : bool) (rows : table) (u e p : string) :
  (forall r, In r rows -> username r <> u) ->
  (forall r, In r rows -> email r <> e) ->
  exists k,
    let created := mkUser (Some k) u e p in
    (forall r, In r rows -> id r <> Some k)
    /\ run (create_user u e p) (store cs rows) =
       (Ok tt, store cs (rows ++ [created]), [Repr created])
    /\ run (get_user u) (store_after (create_user u e p) (store cs rows)) =
       (Ok tt, store cs (rows ++ [created]), [Repr created]).
Proof.
  intros Hu He. exists (next_id rows). cbn zeta.
  assert (Hfree : taken u e rows = false).
  { apply taken_false_iff. intros r Hin. split; [now apply Hu|now apply He]. }
  assert (Hrun : run (create_user u e p) (store cs rows) =
                 (Ok tt, store cs (rows ++ [mkUser (Some (next_id rows)) u e p]),
                  [Repr (mkUser (Some (next_id rows)) u e p)])).
  { rewrite run_create_user, Hfree. reflexivity. }
  split; [|split].
  - intros r. apply next_id_fresh.
  - exact Hrun.
  - unfold store_after. rewrite Hrun. cbn [fst snd].
    rewrite run_get_user, find_middle; [reflexivity|reflexivity|assumption].
Qed.

Lemma create_user_then_get_user_witness :
  (forall r, In r [bob_row] -> username r <> "rob")
  /\ (forall r, In r [bob_row] -> email r <> "rob@mail.com")
  /\ exists k,
      let created := mkUser (Some k) "rob" "rob@mail.com" "robpass" in
      (forall r, In r [bob_row] -> id r <> Some k)
      /\ run (create_user "rob" "rob@mail.com" "robpass") (store true [bob_row]) =
         (Ok tt, store true ([bob_row] ++ [created]), [Repr created])
      /\ run (get_user "rob")
           (store_after (create_user "rob" "rob@mail.com" "robpass")
              (store true [bob_row])) =
         (Ok tt, store true ([bob_row] ++ [created]), [Repr created]).
Proof.
  assert (H1 : forall r, In r [bob_row] -> username r <> "rob").
  { intros r [<-|[]]. discriminate. }
  assert (H2 : forall r, In r [bob_row] -> email r <> "rob@mail.com").
  { intros r [<-|[]]. discriminate. }
  split; [exact H1|split; [exact H2|]].
  exact (create_user_then_get_user true [bob_row] "rob" "rob@mail.com" "robpass" H1 H2).
Defined.

Lemma count_one_middle (p : User -> bool) (a b : table) (r : User) :
  p r = true ->
  (forall x, In x (a ++ b) -> p x = false) ->
  List.length (filter p (a ++ r :: b)) = 1%nat.
Proof.
  intros Hr Hothers.
  assert (Hnone : forall l, (forall x, In x l -> p x = false) -> filter p l = []).
  { induction l as [|x l IH]; cbn; intros Hl; [reflexivity|].
    rewrite (Hl x (or_introl eq_refl)). apply IH. intros y Hy. apply Hl. now right. }
  rewrite filter_app. cbn. rewrite Hr.
  rewrite !Hnone by (intros x Hx; apply Hothers, in_or_app; tauto).
  reflexivity.
Qed.

Lemma count_username_one (rows : table) (r : User) :
  well_formed rows = true -> In r rows -> count_username (username r) rows = 1%nat.
Proof.
  intros Hwf Hin.
  destruct (well_formed_split rows r Hwf Hin) as (a & b & k & -> & _ & Hothers).
  unfold count_username. apply count_one_middle.
  - apply String.eqb_refl.
  - intros x Hx. apply String.eqb_neq. now apply Hothers.
Qed.

Lemma count_email_one (rows : table) (r : User) :
  well_formed rows = true -> In r rows -> count_email (email r) rows = 1%nat.
Proof.
  intros Hwf Hin.
  destruct (well_formed_split rows r Hwf Hin) as (a & b & k & -> & _ & Hothers).
  unfold count_email. apply count_one_middle.
  - apply String.eqb_refl.
  - intros x Hx. apply String.eqb_neq. now apply Hothers.
Qed.

(** C2: on a store that already holds a user with the username [u] or with
    the email [e], [create_user u e p] ends normally (the store's error does
    not escape), prints the one line "Username or email already taken!" and
    leaves the store as it was; a username or an email that was taken is
    borne by exactly one record afterwards. *)
Theorem create_user_duplicate_rejected (cs : bool) (rows : table) (u e p : string) :
  well_formed rows = true ->
  (exists r, In r rows /\ (username r = u \/ email r = e)) ->
  run (create_user u e p) (store cs rows) =
  (Ok tt, store cs rows, [Text "Username or email already taken!"])
  /\ store_after (create_user u e p) (store cs rows) = store cs rows
  /\ ((exists r, In r rows /\ username r = u) -> count_username u rows = 1%nat)
  /\ ((exists r, In r rows /\ email r = e) -> count_email e rows = 1%nat).
Proof.
  intros Hwf Hdup.
  assert (Hrun : run (create_user u e p) (store cs rows) =
                 (Ok tt, store cs rows, [Text "Username or email already taken!"])).
  { rewrite run_create_user, (proj2 (taken_true_iff u e rows) Hdup). reflexivity. }
  split; [exact Hrun|split; [|split]].
  - unfold store_after. now rewrite Hrun.
  - intros (r & Hin & <-). now apply count_username_one.
  - intros (r & Hin & <-). now apply count_email_one.
Qed.

Lemma create_user_duplicate_rejected_witness :
  well_formed [bob_row] = true
  /\ (exists r, In r [bob_row] /\ (username r = "bob" \/ email r = "b@x.org"))
  /\ run (create_user "bob" "b@x.org" "pw") (store true [bob_row]) =
     (Ok tt, store true [bob_row], [Text "Username or email already taken!"])
  /\ store_after (create_user "bob" "b@x.org" "pw") (store true [bob_row]) =
     store true [bob_row]
  /\ ((exists r, In r [bob_row] /\ username r = "bob") ->
      count_username "bob" [bob_row] = 1%nat)
  /\ ((exists r, In r [bob_row] /\ email r = "b@x.org") ->
      count_email "b@x.org" [bob_row] = 1%nat).
Proof.
  assert (H1 : well_formed [bob_row] = true) by reflexivity.
  assert (H2 : exists r, In r [bob_row] /\ (username r = "bob" \/ email r = "b@x.org")).
  { exists bob_row. split; [now left|now left]. }
  split; [exact H1|split; [exact H2|]].
  exact (create_user_duplicate_rejected true [bob_row] "bob" "b@x.org" "pw" H1 H2).
Defined.

(** ** Changing an email *)

(** C3: for a user [u] of the store and an email [new_e] that no other record
    bears, [change_email u new_e] ends normally and the store differs from
    what it was in the record of [u] alone, which sits where it sat and has
    kept its id, its username and its password and now has the email
    [new_e]. *)
Theorem change_email_only_email (cs : bool) (rows : table) (u new_e : string) (r : User) :
  well_formed rows = true ->
  In r rows ->
  username r = u ->
  (forall x, In x rows -> x <> r -> email x <> new_e) ->
  exists a b r',
    rows = a ++ r :: b
    /\ run (change_email u new_e) (store cs rows) =
       (Ok tt, store cs (a ++ r' :: b), [Text (updated_message r')])
    /\ id r' = id r
    /\ username r' = username r
    /\ password r' = password r
    /\ email r' = new_e.
Proof.
  intros Hwf Hin Hu Hfree.
  destruct (well_formed_split rows r Hwf Hin) as (a & b & k & -> & Hk & Hothers).
  exists a, b, (set_email new_e r).
  split; [reflexivity|split; [|now cbn]].
  assert (Hfind : find (by_username u) (a ++ r :: b) = Some r).
  { apply find_middle; [assumption|].
    intros x Hx. rewrite <- Hu. apply Hothers, in_or_app. now left. }
  rewrite (run_change_email_found cs _ u new_e r k Hfind Hk).
  assert (Hnot : email_taken_by_other k new_e (a ++ r :: b) = false).
  { unfold email_taken_by_other.
    destruct (existsb _ (a ++ r :: b)) eqn:E; [|reflexivity].
    apply existsb_exists in E. destruct E as (x & Hx & Hc).
    apply andb_true_iff in Hc. destruct Hc as [Hid He].
    apply String.eqb_eq in He. apply negb_true_iff in Hid.
    exfalso. apply (Hfree x Hx); [|assumption].
    intros ->. unfold has_id in Hid. rewrite Hk, Z.eqb_refl in Hid. discriminate. }
  rewrite Hnot, update_middle; [reflexivity|assumption|].
  intros x Hx. now apply Hothers.
Qed.

Lemma change_email_only_email_witness :
  well_formed [bob_row; alice_row] = true
  /\ In bob_row [bob_row; alice_row]
  /\ username bob_row = "bob"
  /\ (forall x, In x [bob_row; alice_row] -> x <> bob_row -> email x <> "bob@new.org")
  /\ exists a b r',
      [bob_row; alice_row] = a ++ bob_row :: b
      /\ run (change_email "bob" "bob@new.org") (store true [bob_row; alice_row]) =
         (Ok tt, store true (a ++ r' :: b), [Text (updated_message r')])
      /\ id r' = id bob_row
      /\ username r' = username bob_row
      /\ password r' = password bob_row
      /\ email r' = "bob@new.org".
Proof.
  assert (H1 : well_formed [bob_row; alice_row] = true) by reflexivity.
  assert (H2 : In bob_row [bob_row; alice_row]) by (now left).
  assert (H3 : username bob_row = "bob") by reflexivity.
  assert (H4 : forall x, In x [bob_row; alice_row] -> x <> bob_row ->
                         email x <> "bob@new.org").
  { intros x [<-|[<-|[]]] Hne; [congruence|discriminate]. }
  split; [exact H1|split; [exact H2|split; [exact H3|split; [exact H4|]]]].
  exact (change_email_only_email true [bob_row; alice_row] "bob" "bob@new.org" bob_row
           H1 H2 H3 H4).
Defined.

(** C4: for a username [u] that no record of the store bears,
    [change_email u new_e] ends normally, prints that [u] was not found and
    leaves the store as it was. *)
Theorem change_email_not_found (cs : bool) (rows : table) (u new_e : string) :
  (forall r, In r rows -> username r <> u) ->
  run (change_email u new_e) (store cs rows) =
  (Ok tt, store cs rows, [Text (u ++ " not found! Unable to update email.")%string]).
Proof.
  intros Habsent. apply run_change_email_missing. now apply find_none_iff.
Qed.

Lemma change_email_not_found_witness :
  (forall r, In r [bob_row] -> username r <> "carol")
  /\ run (change_email "carol" "carol@mail.com") (store true [bob_row]) =
     (Ok tt, store true [bob_row], [Text "carol not found! Unable to update email."]).
Proof.
  assert (H1 : forall r, In r [bob_row] -> username r <> "carol").
  { intros r [<-|[]]. discriminate. }
  split; [exact H1|].
  exact (change_email_not_found true [bob_row] "carol" "carol@mail.com" H1).
Defined.

(** C9: for a user [u] of the store and an email [new_e] that another record
    bears, [change_email u new_e] ends with the store's IntegrityError, which
    nothing catches: nothing is printed and the store is as it was.
    [create_user] with that same email catches the error and ends
    normally. *)
Theorem change_email_duplicate_raises (cs : bool) (rows : table) (u new_e : string)
    (r other : User) :
  well_formed rows = true ->
  In r rows ->
  username r = u ->
  In other rows ->
  other <> r ->
  email other = new_e ->
  run (change_email u new_e) (store cs rows) = (Raise IntegrityError, store cs rows, [])
  /\ forall u' p,
       run (create_user u' new_e p) (store cs rows) =
       (Ok tt, store cs rows, [Text "Username or email already taken!"]).
Proof.
  intros Hwf Hin Hu Hother Hne He. split.
  - destruct (well_formed_split rows r Hwf Hin) as (a & b & k & Hrows & Hk & Hothers).
    assert (Hfind : find (by_username u) rows = Some r).
    { rewrite Hrows. apply find_middle; [assumption|].
      intros x Hx. rewrite <- Hu. apply Hothers, in_or_app. now left. }
    rewrite (run_change_email_found cs _ u new_e r k Hfind Hk).
    assert (Htaken : email_taken_by_other k new_e rows = true).
    { unfold email_taken_by_other. apply existsb_exists. exists other.
      split; [assumption|]. apply andb_true_iff. split.
      - apply negb_true_iff. apply Hothers.
        rewrite Hrows in Hother. apply in_app_or in Hother. apply in_or_app.
        destruct Hother as [Ha|[Hr|Hb]]; [now left|congruence|now right].
      - now apply String.eqb_eq. }
    now rewrite Htaken.
  - intros u' p. rewrite run_create_user.
    assert (Htaken : taken u' new_e rows = true).
    { apply taken_true_iff. exists other. split; [assumption|now right]. }
    now rewrite Htaken.
Qed.

Lemma change_email_duplicate_raises_witness :
  well_formed [bob_row; alice_row] = true
  /\ In bob_row [bob_row; alice_row]
  /\ username bob_row = "bob"
  /\ In alice_row [bob_row; alice_row]
  /\ alice_row <> bob_row
  /\ email alice_row = "alice@mail.com"
  /\ run (change_email "bob" "alice@mail.com") (store true [bob_row; alice_row]) =
     (Raise IntegrityError, store true [bob_row; alice_row], [])
  /\ forall u' p,
       run (create_user u' "alice@mail.com" p) (store true [bob_row; alice_row]) =
       (Ok tt, store true [bob_row; alice_row],
        [Text "Username or email already taken!"]).
Proof.
  assert (H1 : well_formed [bob_row; alice_row] = true) by reflexivity.
  assert (H2 : In bob_row [bob_row; alice_row]) by (now left).
  assert (H3 : username bob_row = "bob") by reflexivity.
  assert (H4 : In alice_row [bob_row; alice_row]) by (right; now left).
  assert (H5 : alice_row <> bob_row) by discriminate.
  assert (H6 : email alice_row = "alice@mail.com") by reflexivity.
  split; [exact H1|split; [exact H2|split; [exact H3|split; [exact H4|
    split; [exact H5|split; [exact H6|]]]]]].
  exact (change_email_duplicate_raises true [bob_row; alice_row] "bob" "alice@mail.com"
           bob_row alice_row H1 H2 H3 H4 H5 H6).
Defined.

(** ** Deleting a user *)

(** C5: for a user [u] of the store, [delete_user u] ends normally and the
    store is what it was without the record of [u]: the records before it and
    those after it are all there, in their order.  A following [get_user u]
    prints that [u] was not found. *)
Theorem delete_user_removes (cs : bool) (rows : table) (u : string) (r : User) :
  well_formed rows = true ->
  In r rows ->
  username r = u ->
  exists a b,
    rows = a ++ r :: b
    /\ ~ In r (a ++ b)
    /\ run (delete_user u) (store cs rows) =
       (Ok tt, store cs (a ++ b), [Text (u ++ " deleted")%string])
    /\ run (get_user u) (store_after (delete_user u) (store cs rows)) =
       (Ok tt, store cs (a ++ b), [Text (u ++ " not found!")%string]).
Proof.
  intros Hwf Hin Hu.
  destruct (well_formed_split rows r Hwf Hin) as (a & b & k & -> & Hk & Hothers).
  exists a, b.
  assert (Hfind : find (by_username u) (a ++ r :: b) = Some r).
  { apply find_middle; [assumption|].
    intros x Hx. rewrite <- Hu. apply Hothers, in_or_app. now left. }
  assert (Hrun : run (delete_user u) (store cs (a ++ r :: b)) =
                 (Ok tt, store cs (a ++ b), [Text (u ++ " deleted")%string])).
  { rewrite run_delete_user, Hfind, Hk, delete_middle; [reflexivity|assumption|].
    intros x Hx. now apply Hothers. }
  split; [reflexivity|split; [|split; [exact Hrun|]]].
  - intros Hr. destruct (Hothers r Hr) as (_ & Hname & _). congruence.
  - unfold store_after. rewrite Hrun. cbn [fst snd].
    rewrite run_get_user.
    assert (Hgone : find (by_username u) (a ++ b) = None).
    { apply find_none_iff. intros x Hx. rewrite <- Hu. now apply Hothers. }
    now rewrite Hgone.
Qed.

Lemma delete_user_removes_witness :
  well_formed [bob_row; alice_row] = true
  /\ In alice_row [bob_row; alice_row]
  /\ username alice_row = "alice"
  /\ exists a b,
      [bob_row; alice_row] = a ++ alice_row :: b
      /\ ~ In alice_row (a ++ b)
      /\ run (delete_user "alice") (store true [bob_row; alice_row]) =
         (Ok tt, store true (a ++ b), [Text "alice deleted"])
      /\ run (get_user "alice")
           (store_after (delete_user "alice") (store true [bob_row; alice_row])) =
         (Ok tt, store true (a ++ b), [Text "alice not found!"]).
Proof.
  assert (H1 : well_formed [bob_row; alice_row] = true) by reflexivity.
  assert (H2 : In alice_row [bob_row; alice_row]) by (right; now left).
  assert (H3 : username alice_row = "alice") by reflexivity.
  split; [exact H1|split; [exact H2|split; [exact H3|]]].
  exact (delete_user_removes true [bob_row; alice_row] "alice" alice_row H1 H2 H3).
Defined.

(** ** Listing a page *)

(** C7, as the claim has it, for every limit and offset that are not
    negative: it fails on a limit of 2^63, which is not negative and which
    the driver cannot bind; the command ends with OverflowError and prints
    no page. *)
Lemma list_users_page_unbounded_fails :
  ~ (forall (cs : bool) (rows : table) (limit_ offset_ : Z),
        (0 <= limit_)%Z ->
        (0 <= offset_)%Z ->
        run (list_users limit_ offset_) (store cs rows) =
        (Ok tt, store cs rows,
         match firstn (Z.to_nat limit_) (skipn (Z.to_nat offset_) rows) with
         | [] => [Text "No users found"]
         | shown => map Repr shown
         end)).
Proof.
  intros Hclaim.
  specialize (Hclaim true [bob_row] 9223372036854775808%Z 0%Z).
  rewrite run_list_users_overflow in Hclaim by reflexivity.
  assert (H1 : (0 <= 9223372036854775808)%Z) by (intros H; discriminate H).
  assert (H2 : (0 <= 0)%Z) by (intros H; discriminate H).
  specialize (Hclaim H1 H2).
  apply (f_equal (fun x => fst (fst x))) in Hclaim. cbn [fst] in Hclaim.
  discriminate Hclaim.
Qed.

(** C7, amended: for a limit and an offset that are not negative and fit 64
    bits, [list_users] ends normally, leaves the store as it was and prints
    the page made of at most [limit] rows after the first [offset] rows of
    the store, or "No users found" when that page is empty.  On five users in
    the order they were created, a limit of 2 and an offset of 1 print the
    second and the third, and nothing else. *)
Theorem list_users_page (cs : bool) (rows : table) (limit_ offset_ : Z) :
  (0 <= limit_ <= int64_max)%Z ->
  (0 <= offset_ <= int64_max)%Z ->
  run (list_users limit_ offset_) (store cs rows) =
  (Ok tt, store cs rows,
   match firstn (Z.to_nat limit_) (skipn (Z.to_nat offset_) rows) with
   | [] => [Text "No users found"]
   | shown => map Repr shown
   end)
  /\ forall u1 u2 u3 u4 u5,
       run (list_users 2 1) (store cs [u1; u2; u3; u4; u5]) =
       (Ok tt, store cs [u1; u2; u3; u4; u5], [Repr u2; Repr u3]).
Proof.
  intros Hl Ho. split.
  - rewrite run_list_users by (unfold int64_min; lia). unfold report, page.
    now destruct (firstn _ _).
  - intros u1 u2 u3 u4 u5.
    rewrite run_list_users by (unfold int64_min, int64_max; lia). reflexivity.
Qed.

Lemma list_users_page_witness :
  (0 <= 2 <= int64_max)%Z
  /\ (0 <= 1 <= int64_max)%Z
  /\ run (list_users 2 1) (store true [bob_row; alice_row]) =
     (Ok tt, store true [bob_row; alice_row],
      match firstn (Z.to_nat 2) (skipn (Z.to_nat 1) [bob_row; alice_row]) with
      | [] => [Text "No users found"]
      | shown => map Repr shown
      end)
  /\ forall u1 u2 u3 u4 u5,
       run (list_users 2 1) (store true [u1; u2; u3; u4; u5]) =
       (Ok tt, store true [u1; u2; u3; u4; u5], [Repr u2; Repr u3]).
Proof.
  assert (H1 : (0 <= 2 <= int64_max)%Z) by (unfold int64_max; lia).
  assert (H2 : (0 <= 1 <= int64_max)%Z) by (unfold int64_max; lia).
  split; [exact H1|split; [exact H2|]].
  exact (list_users_page true [bob_row; alice_row] 2 1 H1 H2).
Defined.

(** ** Initialising the store *)

(** C8: from any store, with or without a schema and whatever it holds, two
    runs of [initialize] in a row both end normally and leave a user table
    with exactly one record, the seed user bob with the email bob@mail.com
    and the password bobpass; so does one run. *)
Theorem initialize_twice (d : Database) :
  outcome_of initialize d = Ok tt
  /\ outcome_of initialize (store_after initialize d) = Ok tt
  /\ user_table (store_after initialize (store_after initialize d)) =
     Some [mkUser (Some 1%Z) "bob" "bob@mail.com" "bobpass"]
  /\ store_after initialize (store_after initialize d) = store_after initialize d.
Proof.
  unfold outcome_of, store_after.
  repeat (rewrite run_initialize; cbn [fst snd]).
  repeat split.
Qed.

(** ** Searching *)

Section Like.

Variable cs : bool.

Lemma like_percent (p s : string) :
  like cs (String percent p) s = like_from cs p s.
Proof.
  induction s as [|c s IH]; [reflexivity|].
  cbn [like_from]. rewrite <- IH. reflexivity.
Qed.

Lemma like_only_percent (s : string) :
  like cs (String percent EmptyString) s = true.
Proof.
  rewrite like_percent. induction s as [|c s IH]; [reflexivity|].
  cbn [like_from]. rewrite IH. apply orb_true_r.
Qed.

(** The empty query matches every column. *)
Lemma contains_empty (s : string) :
  like cs (contains_pattern EmptyString) s = true.
Proof.
  unfold contains_pattern. cbn [String.append].
  rewrite like_percent. destruct s as [|c s]; cbn [like_from];
    now rewrite like_only_percent.
Qed.

Lemma matching_empty (rows : table) :
  matching cs EmptyString rows = rows.
Proof.
  unfold matching. induction rows as [|r rows IH]; cbn [filter]; [reflexivity|].
  now rewrite !contains_empty, IH.
Qed.

End Like.

Lemma like_plain_prefix (q : string) :
  plain q = true ->
  forall s, like true (q ++ String percent EmptyString)%string s = prefix q s.
Proof.
  induction q as [|c q IH]; intros Hplain s.
  - cbn [String.append]. rewrite like_only_percent. now destruct s.
  - cbn [plain] in Hplain. apply andb_true_iff in Hplain. destruct Hplain as [Hc Hq].
    apply andb_true_iff in Hc. destruct Hc as [Hp Hu].
    apply negb_true_iff in Hp, Hu.
    cbn [String.append like]. rewrite Hp.
    destruct s as [|d s]; [reflexivity|].
    rewrite Hu, (IH Hq). cbn [prefix orb like_char].
    destruct (ascii_dec c d) as [->|Hne].
    + now rewrite Ascii.eqb_refl.
    + now rewrite (proj2 (Ascii.eqb_neq _ _) Hne).
Qed.

(** For a query without wildcards and a store whose LIKE tells the cases
    apart, [column.contains(query)] is the substring test. *)
Lemma contains_plain (q s : string) :
  plain q = true ->
  like true (contains_pattern q) s = has_substring q s.
Proof.
  intros Hplain. unfold contains_pattern. cbn [String.append].
  rewrite like_percent.
  induction s as [|c s IH]; cbn [like_from has_substring];
    rewrite (like_plain_prefix q Hplain); [reflexivity|].
  now rewrite IH.
Qed.



(** What [find_user] prints on a store whose LIKE tells the cases apart, for
    a query without wildcards: the records whose username or email has the
    query as a substring. *)
Lemma find_user_plain_query (rows : table) (query : string) :
  plain query = true ->
  run (find_user query) (store true rows) =
  (Ok tt, store true rows,
   report
     (filter (fun r => has_substring query (username r) || has_substring query (email r))
        rows)
     (no_match_message query)).
Proof.
  intros Hplain. rewrite run_find_user. unfold matching.
  rewrite (filter_ext _
             (fun r => has_substring query (username r)
                       || has_substring query (email r))); [reflexivity|].
  intros r. now rewrite !contains_plain.
Qed.

(** C6, on the query made of the one character [%]: neither the username nor
    the email of bob contains it, and [find_user] prints bob's record and not
    the message that nothing matched, whatever the collation of the store.
    The same goes for [_] and every record with a username or an email that
    is not empty. *)
Theorem find_user_wildcard_query (cs : bool) :
  has_substring "%" (username bob_row) = false
  /\ has_substring "%" (email bob_row) = false
  /\ run (find_user "%") (store cs [bob_row]) =
     (Ok tt, store cs [bob_row], [Repr bob_row])
  /\ has_substring "_" (username bob_row) = false
  /\ has_substring "_" (email bob_row) = false
  /\ run (find_user "_") (store cs [bob_row]) =
     (Ok tt, store cs [bob_row], [Repr bob_row]).
Proof.
  destruct cs; repeat split.
Qed.

(** The example of the specification: the query bob finds the user bob, by
    the username as by the email, and no one else. *)
Example find_user_bob (cs : bool) :
  run (find_user "bob") (store cs [bob_row; alice_row]) =
  (Ok tt, store cs [bob_row; alice_row], [Repr bob_row]).
Proof. destruct cs; reflexivity. Qed.

(** Where LIKE does not tell the cases apart the query BOB finds bob too;
    where it does, it finds no one. *)
Example find_user_upper_case :
  output_of (find_user "BOB") (store false [bob_row; alice_row]) = [Repr bob_row]
  /\ output_of (find_user "BOB") (store true [bob_row; alice_row]) =
     [Text (no_match_message "BOB")].
Proof. split; reflexivity. Qed.

(** C10: for the empty query [find_user] ends normally and takes every record
    of the store as matching: it prints them all, in order, when there is
    one, and prints the message that nothing matched exactly when the store
    holds no record. *)
Theorem find_user_empty_query (cs : bool) (rows : table) :
  matching cs "" rows = rows
  /\ run (find_user "") (store cs rows) =
     (Ok tt, store cs rows,
      match rows with
      | [] => [Text (no_match_message "")]
      | _ :: _ => map Repr rows
      end)
  /\ (In (Text (no_match_message "")) (output_of (find_user "") (store cs rows))
      <-> rows = []).
Proof.
  assert (Hrun : run (find_user "") (store cs rows) =
                 (Ok tt, store cs rows, report rows (no_match_message ""))).
  { rewrite run_find_user, matching_empty. reflexivity. }
  split; [apply matching_empty|split; [exact Hrun|]].
  unfold output_of. rewrite Hrun. cbn [snd]. destruct rows as [|r rows].
  - cbn. tauto.
  - split; [|discriminate]. cbn [report]. intros Hin.
    apply in_map_iff in Hin. destruct Hin as (x & Hx & _). discriminate.
Qed.

(** ** The invariant is kept *)

Section Preservation.

Lemma NoDup_snoc {B} (l : list B) (x : B) :
  NoDup l -> ~ In x l -> NoDup (l ++ [x]).
Proof.
  intros Hl Hx. apply (NoDup_Add (a := x) (l := l)).
  - rewrite <- (app_nil_r l) at 1. apply Add_app.
  - now split.
Qed.

Lemma NoDup_replace {B} (a b : list B) (x y : B) :
  NoDup (a ++ x :: b) -> ~ In y (a ++ b) -> NoDup (a ++ y :: b).
Proof.
  intros Hx Hy. apply NoDup_remove_1 in Hx.
  apply (NoDup_Add (Add_app y a b)). now split.
Qed.

Lemma well_formed_insert (rows : table) (u e p : string) :
  well_formed rows = true ->
  taken u e rows = false ->
  well_formed (rows ++ [mkUser (Some (next_id rows)) u e p]) = true.
Proof.
  rewrite !well_formed_spec, taken_false_iff.
  intros (Hids & Hid & Hname & Hmail) Hfree.
  rewrite !map_app. cbn [map username email id_or_zero id].
  repeat split.
  - apply Forall_app. split; [assumption|]. now repeat constructor.
  - apply NoDup_snoc; [assumption|]. intros Hin.
    apply in_map_iff in Hin. destruct Hin as (r & Hr & Hin).
    pose proof (max_id_upper rows r Hin). unfold next_id in Hr. lia.
  - apply NoDup_snoc; [assumption|]. intros Hin.
    apply in_map_iff in Hin. destruct Hin as (r & Hr & Hin).
    now destruct (Hfree r Hin).
  - apply NoDup_snoc; [assumption|]. intros Hin.
    apply in_map_iff in Hin. destruct Hin as (r & Hr & Hin).
    now destruct (Hfree r Hin).
Qed.

Lemma well_formed_update (a b : table) (r : User) (e : string) :
  well_formed (a ++ r :: b) = true ->
  (forall x, In x (a ++ b) -> email x <> e) ->
  well_formed (a ++ set_email e r :: b) = true.
Proof.
  rewrite !well_formed_spec.
  intros (Hids & Hid & Hname & Hmail) Hfree.
  rewrite !map_app in *. cbn [map] in *.
  repeat split; try assumption.
  - apply Forall_app in Hids. destruct Hids as [Ha Hb].
    apply Forall_app. split; [assumption|].
    inversion Hb; subst. now constructor.
  - apply (NoDup_replace _ _ (email r)); [assumption|].
    rewrite <- map_app. intros Hin.
    apply in_map_iff in Hin. destruct Hin as (x & Hx & Hin).
    now apply (Hfree x Hin).
Qed.

Lemma well_formed_delete (a b : table) (r : User) :
  well_formed (a ++ r :: b) = true -> well_formed (a ++ b) = true.
Proof.
  rewrite !well_formed_spec.
  intros (Hids & Hid & Hname & Hmail).
  rewrite !map_app in *. cbn [map] in *.
  repeat split; try (eapply NoDup_remove_1; eassumption).
  apply Forall_app in Hids. destruct Hids as [Ha Hb].
  apply Forall_app. split; [assumption|]. now inversion Hb.
Qed.

End Preservation.

Section Reachable.

Lemma without_schema (i : invocation) (c : bool) :
  i <> Initialize ->
  run (cli i) (mkDatabase c None) = (Raise OperationalError, mkDatabase c None, []).
Proof.
  destruct i; intros Hi; try reflexivity. congruence.
Qed.

Lemma others_free (k : Z) (e : string) (a b : table) (r : User) :
  email_taken_by_other k e (a ++ r :: b) = false ->
  (forall x, In x (a ++ b) -> has_id k x = false) ->
  forall x, In x (a ++ b) -> email x <> e.
Proof.
  unfold email_taken_by_other. intros Hfree Hids x Hx He.
  assert (Hc : existsb (fun r0 => negb (has_id k r0) && (email r0 =? e)%string)
                 (a ++ r :: b) = true).
  { apply existsb_exists. exists x. split.
    - apply in_app_or in Hx. apply in_or_app. cbn. tauto.
    - rewrite (Hids x Hx). cbn. now apply String.eqb_eq. }
  congruence.
Qed.

Lemma change_email_keeps (c : bool) (rows : table) (u e : string) :
  well_formed rows = true ->
  well_formed_store (store_after (change_email u e) (store c rows)) = true.
Proof.
  intros Hwf. unfold store_after.
  destruct (find (by_username u) rows) as [r|] eqn:Hfind.
  - pose proof (find_some _ _ Hfind) as [Hin _].
    destruct (well_formed_split rows r Hwf Hin) as (a & b & k & -> & Hk & Hothers).
    rewrite (run_change_email_found c _ u e r k Hfind Hk).
    destruct (email_taken_by_other k e (a ++ r :: b)) eqn:Htaken; [assumption|].
    cbn [fst snd]. rewrite update_middle;
      [|assumption|intros x Hx; now apply Hothers].
    cbn. apply well_formed_update; [assumption|].
    apply (others_free k e a b r Htaken). intros x Hx. now apply Hothers.
  - now rewrite run_change_email_missing.
Qed.

Lemma delete_user_keeps (c : bool) (rows : table) (u : string) :
  well_formed rows = true ->
  well_formed_store (store_after (delete_user u) (store c rows)) = true.
Proof.
  intros Hwf. unfold store_after. rewrite run_delete_user.
  destruct (find (by_username u) rows) as [r|] eqn:Hfind; [|assumption].
  pose proof (find_some _ _ Hfind) as [Hin _].
  destruct (well_formed_split rows r Hwf Hin) as (a & b & k & -> & Hk & Hothers).
  rewrite Hk. cbn [fst snd].
  rewrite delete_middle; [|assumption|intros x Hx; now apply Hothers].
  cbn. now apply well_formed_delete in Hwf.
Qed.

(** No command breaks the uniqueness of ids, usernames and emails. *)
Lemma cli_keeps_well_formed (i : invocation) (d : Database) :
  well_formed_store d = true ->
  well_formed_store (store_after (cli i) d) = true.
Proof.
  destruct d as [c [rows|]].
  - cbn [well_formed_store user_table]. intros Hwf.
    change (mkDatabase c (Some rows)) with (store c rows).
    destruct i as [|u| |u e|u e p|u|q|l o]; cbn [cli].
    + unfold store_after. now rewrite run_initialize.
    + unfold store_after. now rewrite run_get_user.
    + unfold store_after. now rewrite run_get_all_users.
    + now apply change_email_keeps.
    + unfold store_after. rewrite run_create_user.
      destruct (taken u e rows) eqn:Htaken; [assumption|].
      cbn. now apply well_formed_insert.
    + now apply delete_user_keeps.
    + unfold store_after. now rewrite run_find_user.
    + unfold list_users. now rewrite store_after_query.
  - intros _. destruct i; try (unfold store_after; now rewrite without_schema).
    unfold store_after. now rewrite run_initialize.
Qed.

(** Every store reached from an initialised one is well formed. *)
Lemma reachable_well_formed (calls : list invocation) (d : Database) :
  well_formed_store (store_after_all calls (store_after initialize d)) = true.
Proof.
  unfold store_after_all.
  assert (Hinit : well_formed_store (store_after initialize d) = true).
  { unfold store_after. now rewrite run_initialize. }
  revert Hinit. generalize (store_after initialize d).
  induction calls as [|i calls IH]; intros d0 Hd0; cbn [fold_left]; [assumption|].
  apply IH. now apply cli_keeps_well_formed.
Qed.

End Reachable.

(** ** Looking users up *)

Lemma find_by_username (rows : table) (r : User) :
  well_formed rows = true ->
  In r rows ->
  find (by_username (username r)) rows = Some r.
Proof.
  intros Hwf Hin.
  destruct (well_formed_split rows r Hwf Hin) as (a & b & k & -> & _ & Hothers).
  apply find_middle; [reflexivity|].
  intros x Hx. apply Hothers, in_or_app. now left.
Qed.

(** [get_user] with a username that no record bears prints that it was not
    found, ends normally and leaves the store as it was. *)
Theorem get_user_not_found (cs : bool) (rows : table) (u : string) :
  (forall r, In r rows -> username r <> u) ->
  run (get_user u) (store cs rows) =
  (Ok tt, store cs rows, [Text (u ++ " not found!")%string]).
Proof.
  intros Habsent. rewrite run_get_user.
  now rewrite (proj2 (find_none_iff u rows) Habsent).
Qed.

Lemma get_user_not_found_witness :
  (forall r, In r [bob_row; alice_row] -> username r <> "carol")
  /\ run (get_user "carol") (store true [bob_row; alice_row]) =
     (Ok tt, store true [bob_row; alice_row], [Text "carol not found!"]).
Proof.
  assert (H1 : forall r, In r [bob_row; alice_row] -> username r <> "carol").
  { intros r [<-|[<-|[]]]; discriminate. }
  split; [exact H1|].
  exact (get_user_not_found true [bob_row; alice_row] "carol" H1).
Defined.

(** In a store whose usernames are unique, [get_user] with the username of a
    record prints that record and nothing else, wherever it sits in the
    table, and leaves the store as it was. *)
Theorem get_user_finds (cs : bool) (rows : table) (r : User) :
  well_formed rows = true ->
  In r rows ->
  run (get_user (username r)) (store cs rows) = (Ok tt, store cs rows, [Repr r]).
Proof.
  intros Hwf Hin. rewrite run_get_user. now rewrite find_by_username.
Qed.

Lemma get_user_finds_witness :
  well_formed [bob_row; alice_row] = true
  /\ In alice_row [bob_row; alice_row]
  /\ run (get_user (username alice_row)) (store true [bob_row; alice_row]) =
     (Ok tt, store true [bob_row; alice_row], [Repr alice_row]).
Proof.
  assert (H1 : well_formed [bob_row; alice_row] = true) by reflexivity.
  assert (H2 : In alice_row [bob_row; alice_row]) by (right; now left).
  split; [exact H1|split; [exact H2|]].
  exact (get_user_finds true [bob_row; alice_row] alice_row H1 H2).
Defined.

Lemma printed_users_report (rows : table) (empty : string) :
  printed_users (report rows empty) = rows.
Proof.
  destruct rows as [|r rows]; [reflexivity|].
  unfold report. generalize (r :: rows). intros l.
  induction l as [|x l IH]; cbn; [reflexivity|now rewrite IH].
Qed.

(** [get_all_users] prints every record of the store, once each and in the
    order of the table, or the line "No users found" when the table is
    empty; it ends normally and leaves the store as it was. *)
Theorem get_all_users_prints_all (cs : bool) (rows : table) :
  run get_all_users (store cs rows) =
  (Ok tt, store cs rows,
   match rows with
   | [] => [Text "No users found"]
   | _ :: _ => map Repr rows
   end)
  /\ printed_users (output_of get_all_users (store cs rows)) = rows.
Proof.
  assert (Hrun := run_get_all_users cs rows). split; [exact Hrun|].
  unfold output_of. rewrite Hrun. apply printed_users_report.
Qed.

(** The four commands that query never write: whatever their arguments, a
    negative limit or offset too, and whatever the store, with or without a
    schema, the store after them is the store before them. *)
Theorem read_commands_leave_store (i : invocation) (d : Database) :
  read_only i = true ->
  store_after (cli i) d = d.
Proof.
  intros Hread. destruct d as [c [rows|]].
  - change (mkDatabase c (Some rows)) with (store c rows). unfold store_after.
    destruct i as [|u| |u e|u e p|u|q|l o]; try discriminate; cbn [cli].
    + now rewrite run_get_user.
    + now rewrite run_get_all_users.
    + now rewrite run_find_user.
    + unfold list_users. fold (store_after (with_get_session
        (found <- db_exec (limit l (offset o select_User)) ;;
         users <- all found ;;
         match users with
         | [] => print (Text "No users found")
         | _ :: _ => for_each users print_user
         end)) (store c rows)).
      now rewrite store_after_query.
  - unfold store_after. rewrite without_schema; [reflexivity|].
    intros ->. discriminate.
Qed.

Lemma read_commands_leave_store_witness :
  read_only (ListUsers (-3) (-1)) = true
  /\ store_after (cli (ListUsers (-3) (-1))) (store false [bob_row]) =
     store false [bob_row].
Proof.
  assert (H1 : read_only (ListUsers (-3) (-1)) = true) by reflexivity.
  split; [exact H1|].
  exact (read_commands_leave_store (ListUsers (-3) (-1)) (store false [bob_row]) H1).
Defined.

(** On a store without a schema every command but [initialize] ends with the
    store's OperationalError, prints nothing and leaves the store without a
    schema: [create_user] catches IntegrityError only, and no other command
    catches anything. *)
Theorem commands_need_schema (i : invocation) (c : bool) :
  i <> Initialize ->
  run (cli i) (mkDatabase c None) = (Raise OperationalError, mkDatabase c None, []).
Proof.
  apply without_schema.
Qed.

Lemma commands_need_schema_witness :
  CreateUser "bob" "bob@mail.com" "bobpass" <> Initialize
  /\ run (cli (CreateUser "bob" "bob@mail.com" "bobpass")) (mkDatabase true None) =
     (Raise OperationalError, mkDatabase true None, []).
Proof.
  assert (H1 : CreateUser "bob" "bob@mail.com" "bobpass" <> Initialize)
    by discriminate.
  split; [exact H1|].
  exact (commands_need_schema (CreateUser "bob" "bob@mail.com" "bobpass") true H1).
Defined.

(** ** Writing: what else the three writers do *)

(** [delete_user] with a username that no record bears prints that it was
    not found, ends normally and deletes nothing. *)
Theorem delete_user_not_found (cs : bool) (rows : table) (u : string) :
  (forall r, In r rows -> username r <> u) ->
  run (delete_user u) (store cs rows) =
  (Ok tt, store cs rows, [Text (u ++ " not found! Unable to delete user.")%string]).
Proof.
  intros Habsent. rewrite run_delete_user.
  now rewrite (proj2 (find_none_iff u rows) Habsent).
Qed.

Lemma delete_user_not_found_witness :
  (forall r, In r [bob_row] -> username r <> "carol")
  /\ run (delete_user "carol") (store true [bob_row]) =
     (Ok tt, store true [bob_row], [Text "carol not found! Unable to delete user."]).
Proof.
  assert (H1 : forall r, In r [bob_row] -> username r <> "carol").
  { intros r [<-|[]]. discriminate. }
  split; [exact H1|].
  exact (delete_user_not_found true [bob_row] "carol" H1).
Defined.

Lemma other_ids (a b : table) (r : User) (k : Z) :
  well_formed (a ++ r :: b) = true ->
  id r = Some k ->
  forall x, In x (a ++ b) -> has_id k x = false.
Proof.
  intros Hwf Hk x Hx. apply well_formed_spec in Hwf.
  destruct Hwf as (Hids & Hid & _ & _). rewrite Forall_forall in Hids.
  assert (Hx' : In x (a ++ r :: b)).
  { apply in_app_or in Hx. apply in_or_app. cbn. tauto. }
  destruct (has_some_id_inv x (Hids x Hx')) as (j & Hj & Hj0).
  unfold has_id. rewrite Hj. apply Z.eqb_neq.
  pose proof (NoDup_map_others id_or_zero a b r Hid x Hx) as Hne.
  unfold id_or_zero in Hne at 2. rewrite Hk in Hne. congruence.
Qed.

Lemma middle_has_id (a b : table) (r : User) :
  well_formed (a ++ r :: b) = true -> exists k, id r = Some k.
Proof.
  intros Hwf. apply well_formed_spec in Hwf. destruct Hwf as (Hids & _).
  rewrite Forall_forall in Hids.
  destruct (has_some_id_inv r (Hids r (in_elt r a b))) as (k & Hk & _).
  now exists k.
Qed.

Lemma run_delete_user_present (cs : bool) (a b : table) (r : User) :
  well_formed (a ++ r :: b) = true ->
  run (delete_user (username r)) (store cs (a ++ r :: b)) =
  (Ok tt, store cs (a ++ b), [Text (deleted_message (username r))]).
Proof.
  intros Hwf. destruct (middle_has_id a b r Hwf) as [k Hk].
  rewrite run_delete_user, (find_by_username _ r Hwf (in_elt r a b)), Hk.
  rewrite delete_middle; [reflexivity|assumption|].
  now apply (other_ids a b r).
Qed.

Lemma absent_after_delete (a b : table) (r : User) :
  well_formed (a ++ r :: b) = true ->
  forall x, In x (a ++ b) -> username x <> username r /\ email x <> email r.
Proof.
  intros Hwf x Hx. apply well_formed_spec in Hwf.
  destruct Hwf as (_ & _ & Hname & Hmail). split.
  - now apply (NoDup_map_others username a b r).
  - now apply (NoDup_map_others email a b r).
Qed.

(** Deleting the same username twice: whether the user was there or not,
    the second [delete_user] finds no one, says so, and the store after it
    is the store after the first. *)
Theorem delete_user_twice (cs : bool) (rows : table) (u : string) :
  well_formed rows = true ->
  run (delete_user u) (store_after (delete_user u) (store cs rows)) =
  (Ok tt, store_after (delete_user u) (store cs rows),
   [Text (u ++ " not found! Unable to delete user.")%string]).
Proof.
  intros Hwf. destruct (find (by_username u) rows) as [r|] eqn:Hfind.
  - pose proof (find_some _ _ Hfind) as [Hin Hu].
    apply String.eqb_eq in Hu. subst u.
    destruct (in_split _ _ Hin) as (a & b & ->).
    unfold store_after. rewrite (run_delete_user_present cs a b r Hwf). cbn [fst snd].
    rewrite run_delete_user.
    assert (Hgone : find (by_username (username r)) (a ++ b) = None).
    { apply find_none_iff. intros x Hx. now apply (absent_after_delete a b r Hwf). }
    now rewrite Hgone.
  - unfold store_after. rewrite run_delete_user, Hfind. cbn [fst snd].
    now rewrite run_delete_user, Hfind.
Qed.

Lemma delete_user_twice_witness :
  well_formed [bob_row; alice_row] = true
  /\ run (delete_user "bob")
       (store_after (delete_user "bob") (store true [bob_row; alice_row])) =
     (Ok tt, store_after (delete_user "bob") (store true [bob_row; alice_row]),
      [Text "bob not found! Unable to delete user."]).
Proof.
  assert (H1 : well_formed [bob_row; alice_row] = true) by reflexivity.
  split; [exact H1|].
  exact (delete_user_twice true [bob_row; alice_row] "bob" H1).
Defined.

(** A deleted user frees the username and the email: in a table whose ids
    are all below the last integer of 64 bits, after [delete_user] of a
    record, [create_user] with the username and the email of that record
    succeeds, and the new record comes last in the table, after every record
    that was left. *)
Theorem delete_then_create (cs : bool) (rows : table) (r : User) (p : string) :
  well_formed rows = true ->
  (forall x k, In x rows -> id x = Some k -> (k < int64_max)%Z) ->
  In r rows ->
  exists a b k,
    rows = a ++ r :: b
    /\ (k <= int64_max)%Z
    /\ run (create_user (username r) (email r) p)
         (store_after (delete_user (username r)) (store cs rows)) =
       (Ok tt,
        store cs ((a ++ b) ++ [mkUser (Some k) (username r) (email r) p]),
        [Repr (mkUser (Some k) (username r) (email r) p)]).
Proof.
  intros Hwf Hbound Hin. destruct (in_split _ _ Hin) as (a & b & ->).
  exists a, b, (next_id (a ++ b)). split; [reflexivity|split].
  - assert (Hmax : forall l : table,
               (forall x k, In x l -> id x = Some k -> (k < int64_max)%Z) ->
               (max_id l < int64_max)%Z).
    { unfold max_id. induction l as [|x l IH]; intros Hl.
      - cbn. unfold int64_max. lia.
      - cbn [map fold_right].
        assert (Hx : (id_or_zero x < int64_max)%Z).
        { unfold id_or_zero. destruct (id x) as [k|] eqn:Hk.
          - apply (Hl x k); [now left|assumption].
          - unfold int64_max. lia. }
        assert (Hrest : (fold_right Z.max 0 (map id_or_zero l) < int64_max)%Z).
        { apply IH. intros y k Hy. apply Hl. now right. }
        lia. }
    unfold next_id.
    assert (H : (max_id (a ++ b) < int64_max)%Z); [|lia].
    apply Hmax. intros x k Hx. apply Hbound.
    apply in_app_or in Hx. apply in_or_app. cbn. tauto.
  - unfold store_after. rewrite (run_delete_user_present cs a b r Hwf). cbn [fst snd].
    rewrite run_create_user.
    assert (Hfree : taken (username r) (email r) (a ++ b) = false).
    { apply taken_false_iff. intros x Hx. now apply (absent_after_delete a b r Hwf). }
    now rewrite Hfree.
Qed.

Lemma delete_then_create_witness :
  well_formed [bob_row; alice_row] = true
  /\ (forall x k, In x [bob_row; alice_row] -> id x = Some k -> (k < int64_max)%Z)
  /\ In bob_row [bob_row; alice_row]
  /\ exists a b k,
      [bob_row; alice_row] = a ++ bob_row :: b
      /\ (k <= int64_max)%Z
      /\ run (create_user (username bob_row) (email bob_row) "newpass")
           (store_after (delete_user (username bob_row))
              (store true [bob_row; alice_row])) =
         (Ok tt,
          store true
            ((a ++ b) ++ [mkUser (Some k) (username bob_row) (email bob_row) "newpass"]),
          [Repr (mkUser (Some k) (username bob_row) (email bob_row) "newpass")]).
Proof.
  assert (H1 : well_formed [bob_row; alice_row] = true) by reflexivity.
  assert (H2 : forall x k, In x [bob_row; alice_row] -> id x = Some k ->
                           (k < int64_max)%Z).
  { intros x k [<-|[<-|[]]] [= <-]; unfold int64_max; lia. }
  assert (H3 : In bob_row [bob_row; alice_row]) by (now left).
  split; [exact H1|split; [exact H2|split; [exact H3|]]].
  exact (delete_then_create true [bob_row; alice_row] bob_row "newpass" H1 H2 H3).
Defined.

(** [create_user] never ends with an exception on a store that has its
    schema: it ends normally for every username, email and password, and it
    prints the line "Username or email already taken!" exactly when a record
    of the store bears the username or the email. *)
Theorem create_user_always_ends_normally (cs : bool) (rows : table) (u e p : string) :
  outcome_of (create_user u e p) (store cs rows) = Ok tt
  /\ ((exists r, In r rows /\ (username r = u \/ email r = e))
      <-> output_of (create_user u e p) (store cs rows) =
          [Text "Username or email already taken!"]).
Proof.
  unfold outcome_of, output_of. rewrite run_create_user.
  destruct (taken u e rows) eqn:Htaken; cbn [fst snd]; (split; [reflexivity|]).
  - split; [reflexivity|]. intros _. now apply taken_true_iff.
  - split; [|discriminate]. intros Hdup.
    apply taken_true_iff in Hdup. congruence.
Qed.

Lemma run_change_email_free (cs : bool) (a b : table) (r : User) (e : string) :
  well_formed (a ++ r :: b) = true ->
  (forall x, In x (a ++ b) -> email x <> e) ->
  run (change_email (username r) e) (store cs (a ++ r :: b)) =
  (Ok tt, store cs (a ++ set_email e r :: b), [Text (updated_message (set_email e r))]).
Proof.
  intros Hwf Hfree. destruct (middle_has_id a b r Hwf) as [k Hk].
  pose proof (other_ids a b r k Hwf Hk) as Hids.
  rewrite (run_change_email_found cs _ _ e r k
             (find_by_username _ r Hwf (in_elt r a b)) Hk).
  assert (Hnot : email_taken_by_other k e (a ++ r :: b) = false).
  { unfold email_taken_by_other.
    destruct (existsb _ (a ++ r :: b)) eqn:E; [|reflexivity].
    apply existsb_exists in E. destruct E as (x & Hx & Hc).
    apply andb_true_iff in Hc. destruct Hc as [Hid He].
    apply String.eqb_eq in He. apply negb_true_iff in Hid.
    apply in_app_or in Hx. destruct Hx as [Hx|[Hx|Hx]].
    - exfalso. apply (Hfree x); [apply in_or_app; now left|assumption].
    - subst x. unfold has_id in Hid. rewrite Hk, Z.eqb_refl in Hid. discriminate.
    - exfalso. apply (Hfree x); [apply in_or_app; now right|assumption]. }
  now rewrite Hnot, update_middle.
Qed.

(** Changing the email of a user to the email the user has already is
    accepted and writes the same row back: the command ends normally, says
    it updated the email, and the store is as it was. *)
Theorem change_email_same_email (cs : bool) (rows : table) (r : User) :
  well_formed rows = true ->
  In r rows ->
  run (change_email (username r) (email r)) (store cs rows) =
  (Ok tt, store cs rows, [Text (updated_message r)]).
Proof.
  intros Hwf Hin. destruct (in_split _ _ Hin) as (a & b & ->).
  rewrite (run_change_email_free cs a b r (email r) Hwf).
  - now destruct r.
  - intros x Hx. now apply (absent_after_delete a b r Hwf).
Qed.

Lemma change_email_same_email_witness :
  well_formed [bob_row; alice_row] = true
  /\ In alice_row [bob_row; alice_row]
  /\ run (change_email (username alice_row) (email alice_row))
       (store true [bob_row; alice_row]) =
     (Ok tt, store true [bob_row; alice_row], [Text (updated_message alice_row)]).
Proof.
  assert (H1 : well_formed [bob_row; alice_row] = true) by reflexivity.
  assert (H2 : In alice_row [bob_row; alice_row]) by (right; now left).
  split; [exact H1|split; [exact H2|]].
  exact (change_email_same_email true [bob_row; alice_row] alice_row H1 H2).
Defined.

(** After a [change_email] that the store accepts, [get_user] with the same
    username prints the record with its new email and with the id, the
    username and the password it had. *)
Theorem change_email_then_get_user (cs : bool) (rows : table) (r : User) (e : string) :
  well_formed rows = true ->
  In r rows ->
  (forall x, In x rows -> x <> r -> email x <> e) ->
  output_of (get_user (username r))
    (store_after (change_email (username r) e) (store cs rows)) =
  [Repr (mkUser (id r) (username r) e (password r))].
Proof.
  intros Hwf Hin Hfree. destruct (in_split _ _ Hin) as (a & b & ->).
  assert (Hothers : forall x, In x (a ++ b) -> email x <> e).
  { intros x Hx. apply Hfree.
    - apply in_app_or in Hx. apply in_or_app. cbn. tauto.
    - intros ->. destruct (absent_after_delete a b r Hwf r Hx) as [Hname _].
      now apply Hname. }
  unfold store_after, output_of.
  rewrite (run_change_email_free cs a b r e Hwf Hothers). cbn [fst snd].
  rewrite run_get_user. cbn [snd].
  rewrite (find_middle (username r) a b (set_email e r)); [reflexivity|reflexivity|].
  intros x Hx. apply (absent_after_delete a b r Hwf). apply in_or_app. now left.
Qed.

Lemma change_email_then_get_user_witness :
  well_formed [bob_row; alice_row] = true
  /\ In alice_row [bob_row; alice_row]
  /\ (forall x, In x [bob_row; alice_row] -> x <> alice_row -> email x <> "al@new.org")
  /\ output_of (get_user (username alice_row))
       (store_after (change_email (username alice_row) "al@new.org")
          (store true [bob_row; alice_row])) =
     [Repr (mkUser (id alice_row) (username alice_row) "al@new.org"
              (password alice_row))].
Proof.
  assert (H1 : well_formed [bob_row; alice_row] = true) by reflexivity.
  assert (H2 : In alice_row [bob_row; alice_row]) by (right; now left).
  assert (H3 : forall x, In x [bob_row; alice_row] -> x <> alice_row ->
                         email x <> "al@new.org").
  { intros x [<-|[<-|[]]] Hne; [discriminate|congruence]. }
  split; [exact H1|split; [exact H2|split; [exact H3|]]].
  exact (change_email_then_get_user true [bob_row; alice_row] alice_row "al@new.org"
           H1 H2 H3).
Defined.

(** Whatever its arguments and however it ends (user not found, email
    rejected, email changed), [change_email] neither adds nor removes a
    record and touches no id, no username and no password: these columns
    read the same, row by row, before and after. *)
Theorem change_email_keeps_identity (cs : bool) (rows : table) (u e : string) :
  well_formed rows = true ->
  exists rows',
    user_table (store_after (change_email u e) (store cs rows)) = Some rows'
    /\ map id rows' = map id rows
    /\ map username rows' = map username rows
    /\ map password rows' = map password rows.
Proof.
  intros Hwf. unfold store_after.
  destruct (find (by_username u) rows) as [r|] eqn:Hfind.
  - pose proof (find_some _ _ Hfind) as [Hin _].
    destruct (in_split _ _ Hin) as (a & b & ->).
    destruct (middle_has_id a b r Hwf) as [k Hk].
    rewrite (run_change_email_found cs _ u e r k Hfind Hk).
    destruct (email_taken_by_other k e (a ++ r :: b)).
    + exists (a ++ r :: b). now repeat split.
    + cbn [fst snd]. rewrite update_middle;
        [|assumption|now apply (other_ids a b r)].
      exists (a ++ set_email e r :: b). rewrite !map_app. now repeat split.
  - rewrite run_change_email_missing by assumption.
    exists rows. now repeat split.
Qed.

Lemma change_email_keeps_identity_witness :
  well_formed [bob_row; alice_row] = true
  /\ exists rows',
      user_table (store_after (change_email "bob" "alice@mail.com")
                    (store true [bob_row; alice_row])) = Some rows'
      /\ map id rows' = map id [bob_row; alice_row]
      /\ map username rows' = map username [bob_row; alice_row]
      /\ map password rows' = map password [bob_row; alice_row].
Proof.
  assert (H1 : well_formed [bob_row; alice_row] = true) by reflexivity.
  split; [exact H1|].
  exact (change_email_keeps_identity true [bob_row; alice_row] "bob" "alice@mail.com" H1).
Defined.

(** ** Pages *)

Lemma firstn_add_skipn {A} (n m : nat) (l : list A) :
  firstn (n + m) l = firstn n l ++ firstn m (skipn n l).
Proof.
  revert l. induction n as [|n IH]; intros l; [reflexivity|].
  destruct l as [|x l]; cbn.
  - now rewrite firstn_nil.
  - now rewrite IH.
Qed.

Lemma page_add (l1 l2 o : Z) (rows : table) :
  (0 <= l1)%Z -> (0 <= l2)%Z -> (0 <= o)%Z ->
  page (l1 + l2) o rows = page l1 o rows ++ page l2 (o + l1) rows.
Proof.
  intros H1 H2 Ho. unfold page.
  rewrite !Z2Nat.inj_add by assumption.
  rewrite firstn_add_skipn, skipn_skipn.
  now rewrite (Nat.add_comm (Z.to_nat l1)).
Qed.

(** Paging through the store loses and repeats nothing: for limits and
    offsets that are not negative and fit 64 bits, the records [list_users]
    prints for a page, followed by those it prints for the page that starts
    where the first one stops, are the records it prints for the one page of
    both lengths. *)
Theorem list_users_pages_concatenate (cs : bool) (rows : table) (l1 l2 o : Z) :
  (0 <= l1)%Z ->
  (0 <= l2)%Z ->
  (0 <= o)%Z ->
  (l1 + l2 <= int64_max)%Z ->
  (o + l1 <= int64_max)%Z ->
  printed_users (output_of (list_users l1 o) (store cs rows))
  ++ printed_users (output_of (list_users l2 (o + l1)) (store cs rows)) =
  printed_users (output_of (list_users (l1 + l2) o) (store cs rows)).
Proof.
  intros H1 H2 Ho Hl Hol. unfold output_of.
  rewrite !run_list_users by (unfold int64_min; lia). cbn [snd].
  rewrite !printed_users_report. symmetry. now apply page_add.
Qed.

Lemma list_users_pages_concatenate_witness :
  (0 <= 1)%Z
  /\ (0 <= 2)%Z
  /\ (0 <= 0)%Z
  /\ (1 + 2 <= int64_max)%Z
  /\ (0 + 1 <= int64_max)%Z
  /\ printed_users (output_of (list_users 1 0) (store true [bob_row; alice_row]))
     ++ printed_users (output_of (list_users 2 (0 + 1)) (store true [bob_row; alice_row])) =
     printed_users (output_of (list_users (1 + 2) 0) (store true [bob_row; alice_row])).
Proof.
  assert (H1 : (0 <= 1)%Z) by lia.
  assert (H2 : (0 <= 2)%Z) by lia.
  assert (H3 : (0 <= 0)%Z) by lia.
  assert (H4 : (1 + 2 <= int64_max)%Z) by (unfold int64_max; lia).
  assert (H5 : (0 + 1 <= int64_max)%Z) by (unfold int64_max; lia).
  split; [exact H1|split; [exact H2|split; [exact H3|split; [exact H4|
    split; [exact H5|]]]]].
  exact (list_users_pages_concatenate true [bob_row; alice_row] 1 2 0 H1 H2 H3 H4 H5).
Defined.

(** For a limit and an offset that are not negative and fit 64 bits, a page
    of no row, or one that starts at or after the end of the table, is
    empty: [list_users] prints "No users found" and no record, and ends
    normally. *)
Theorem list_users_past_end (cs : bool) (rows : table) (limit_ offset_ : Z) :
  (0 <= limit_ <= int64_max)%Z ->
  (0 <= offset_ <= int64_max)%Z ->
  limit_ = 0%Z \/ (Z.of_nat (List.length rows) <= offset_)%Z ->
  run (list_users limit_ offset_) (store cs rows) =
  (Ok tt, store cs rows, [Text "No users found"]).
Proof.
  intros Hl Ho Hempty. rewrite run_list_users by (unfold int64_min; lia).
  unfold page. destruct Hempty as [->|Hpast]; [reflexivity|].
  rewrite skipn_all2 by lia. now rewrite firstn_nil.
Qed.

Lemma list_users_past_end_witness :
  (0 <= 10 <= int64_max)%Z
  /\ (0 <= 2 <= int64_max)%Z
  /\ (10 = 0 \/ Z.of_nat (List.length [bob_row; alice_row]) <= 2)%Z
  /\ run (list_users 10 2) (store true [bob_row; alice_row]) =
     (Ok tt, store true [bob_row; alice_row], [Text "No users found"]).
Proof.
  assert (H1 : (0 <= 10 <= int64_max)%Z) by (unfold int64_max; lia).
  assert (H2 : (0 <= 2 <= int64_max)%Z) by (unfold int64_max; lia).
  assert (H3 : (10 = 0 \/ Z.of_nat (List.length [bob_row; alice_row]) <= 2)%Z).
  { right. intros H; discriminate H. }
  split; [exact H1|split; [exact H2|split; [exact H3|]]].
  exact (list_users_past_end true [bob_row; alice_row] 10 2 H1 H2 H3).
Defined.

(** With no offset and a limit that fits 64 bits and is not below the number
    of records, the default limit of 10 on a store of at most ten users for
    one, [list_users] does what [get_all_users] does: same outcome, same
    store, same lines. *)
Theorem list_users_whole_table (cs : bool) (rows : table) (limit_ : Z) :
  (Z.of_nat (List.length rows) <= limit_ <= int64_max)%Z ->
  run (list_users limit_ 0) (store cs rows) = run get_all_users (store cs rows).
Proof.
  intros Hall. rewrite run_list_users by (unfold int64_min, int64_max in *; lia).
  rewrite run_get_all_users.
  unfold page. cbn [Z.to_nat skipn]. now rewrite firstn_all2 by lia.
Qed.

Lemma list_users_whole_table_witness :
  (Z.of_nat (List.length [bob_row; alice_row]) <= 10 <= int64_max)%Z
  /\ run (list_users 10 0) (store true [bob_row; alice_row]) =
     run get_all_users (store true [bob_row; alice_row]).
Proof.
  assert (H1 : (Z.of_nat (List.length [bob_row; alice_row]) <= 10 <= int64_max)%Z).
  { unfold int64_max. cbn [List.length]. lia. }
  split; [exact H1|].
  exact (list_users_whole_table true [bob_row; alice_row] 10 H1).
Defined.

(** ** What a search cannot miss *)

Section Literal.

Variable cs : bool.






End Literal.



(** ** The invariant, command by command *)

(** No command breaks the store's invariant: from a store in which every row
    has an id and ids, usernames and emails are each unique, every command,
    with any arguments and however it ends, leaves such a store. *)
Theorem commands_keep_uniqueness (i : invocation) (d : Database) :
  well_formed_store d = true ->
  well_formed_store (store_after (cli i) d) = true.
Proof.
  apply cli_keeps_well_formed.
Qed.

Lemma commands_keep_uniqueness_witness :
  well_formed_store (store true [bob_row; alice_row]) = true
  /\ well_formed_store
       (store_after (cli (ChangeEmail "bob" "alice@mail.com"))
          (store true [bob_row; alice_row])) = true.
Proof.
  assert (H1 : well_formed_store (store true [bob_row; alice_row]) = true)
    by reflexivity.
  split; [exact H1|].
  exact (commands_keep_uniqueness (ChangeEmail "bob" "alice@mail.com")
           (store true [bob_row; alice_row]) H1).
Defined.

Lemma cli_keeps_schema (i : invocation) (c : bool) (rows : table) :
  well_formed rows = true ->
  exists rows', store_after (cli i) (store c rows) = store c rows'.
Proof.
  intros Hwf. unfold store_after.
  destruct i as [|u| |u e|u e p|u|q|l o]; cbn [cli].
  - rewrite run_initialize. now exists [bob_row].
  - rewrite run_get_user. now exists rows.
  - rewrite run_get_all_users. now exists rows.
  - destruct (find (by_username u) rows) as [r|] eqn:Hfind.
    + pose proof (find_some _ _ Hfind) as [Hin _].
      destruct (in_split _ _ Hin) as (a & b & ->).
      destruct (middle_has_id a b r Hwf) as [k Hk].
      rewrite (run_change_email_found c _ u e r k Hfind Hk).
      destruct (email_taken_by_other k e (a ++ r :: b)); eexists; reflexivity.
    + rewrite run_change_email_missing by assumption. now exists rows.
  - rewrite run_create_user. destruct (taken u e rows); eexists; reflexivity.
  - rewrite run_delete_user.
    destruct (find (by_username u) rows) as [r|]; [|now exists rows].
    destruct (id r); eexists; reflexivity.
  - rewrite run_find_user. now exists rows.
  - unfold list_users. rewrite run_query.
    destruct (_ && _); now exists rows.
Qed.

(** Once [initialize] has run, whatever the store was before, no sequence of
    commands loses the schema or leads to a table with two records of one
    id, one username or one email, or with a record without an id. *)
Theorem initialized_stores_stay_well_formed (calls : list invocation) (d : Database) :
  exists rows,
    user_table (store_after_all calls (store_after initialize d)) = Some rows
    /\ well_formed rows = true.
Proof.
  assert (Hstep : forall calls c rows,
             well_formed rows = true ->
             exists rows',
               user_table (store_after_all calls (store c rows)) = Some rows'
               /\ well_formed rows' = true).
  { clear. induction calls as [|i calls IH]; intros c rows Hwf.
    - exists rows. now split.
    - cbn [store_after_all fold_left].
      destruct (cli_keeps_schema i c rows Hwf) as [rows' Hrows'].
      pose proof (cli_keeps_well_formed i (store c rows) Hwf) as Hwf'.
      rewrite Hrows' in *. now apply IH. }
  unfold store_after at 1. rewrite run_initialize. cbn [fst snd].
  now apply Hstep.
Qed.

(** ** Creating and deleting undo each other *)

(** A user created and then deleted leaves no trace: when the username and
    the email are free, [create_user] followed by [delete_user] of that
    username gives back the store there was, row for row. *)
Theorem create_then_delete (cs : bool) (rows : table) (u e p : string) :
  well_formed rows = true ->
  (forall r, In r rows -> username r <> u /\ email r <> e) ->
  run (delete_user u) (store_after (create_user u e p) (store cs rows)) =
  (Ok tt, store cs rows, [Text (u ++ " deleted")%string]).
Proof.
  intros Hwf Hfree. apply taken_false_iff in Hfree.
  unfold store_after. rewrite run_create_user, Hfree. cbn [fst snd].
  pose proof (well_formed_insert rows u e p Hwf Hfree) as Hwf'.
  pose proof (run_delete_user_present cs rows []
                (mkUser (Some (next_id rows)) u e p) Hwf') as Hrun.
  cbn [username] in Hrun. rewrite app_nil_r in Hrun. exact Hrun.
Qed.

Lemma create_then_delete_witness :
  well_formed [bob_row; alice_row] = true
  /\ (forall r, In r [bob_row; alice_row] ->
                username r <> "carol" /\ email r <> "carol@mail.com")
  /\ run (delete_user "carol")
       (store_after (create_user "carol" "carol@mail.com" "carolpass")
          (store true [bob_row; alice_row])) =
     (Ok tt, store true [bob_row; alice_row], [Text "carol deleted"]).
Proof.
  assert (H1 : well_formed [bob_row; alice_row] = true) by reflexivity.
  assert (H2 : forall r, In r [bob_row; alice_row] ->
                         username r <> "carol" /\ email r <> "carol@mail.com").
  { intros r [<-|[<-|[]]]; split; discriminate. }
  split; [exact H1|split; [exact H2|]].
  exact (create_then_delete true [bob_row; alice_row] "carol" "carol@mail.com"
           "carolpass" H1 H2).
Defined.
